(** * The Scryfall card index of [mtg/scryfall.py]

    A shallow embedding of the class [ScryfallDB]: the build of the index
    from the raw catalogue ([_load_cards_from_db]), the normalisation of a
    card name ([make_dbentry]), the query engine ([lookup]) with its expanded
    search, the set-code and set-type filters and the uniqueness pass, and
    the set-code table ([_load_codename_map], [add_expansion_code]).

    A Python string is modelled by the [string] of the bytes of its UTF-8
    encoding: an ASCII character is one byte, and tests for a prefix, a
    suffix or a substring, and the replacement of an ASCII character, are
    the same on the bytes as on the characters.  [split] knows all the
    white space of [str.split]; [lower] and [upper] are those of Python on
    the code points up to U+00FF (ASCII and the Latin-1 supplement, which
    covers the sharp s, whose upper case is SS) and leave other code points
    as they are.  The dictionary [_cards_map] is kept as an
    association list in insertion order, because [all_cards] walks it in that
    order; the set-code table, whose order is never observed, is a [gmap]. *)

From Stdlib Require Import String Ascii List Bool Arith Lia.
From stdpp Require Import base option gmap strings.
Import ListNotations.

Local Open Scope string_scope.
Local Open Scope list_scope.

(** ** Python string primitives *)

Module Py.

Definition is_upper (c : ascii) : bool :=
  let n := nat_of_ascii c in ((65 <=? n) && (n <=? 90))%nat.

Definition is_lower (c : ascii) : bool :=
  let n := nat_of_ascii c in ((97 <=? n) && (n <=? 122))%nat.

Definition lower_char (c : ascii) : ascii :=
  if is_upper c then ascii_of_nat (nat_of_ascii c + 32) else c.

Definition upper_char (c : ascii) : ascii :=
  if is_lower c then ascii_of_nat (nat_of_ascii c - 32) else c.

(** [str.isspace] on one ASCII character: TAB, LF, VT, FF, CR, the four
    separators FS, GS, RS, US, and the space. *)
Definition isspace (c : ascii) : bool :=
  let n := nat_of_ascii c in
  (((9 <=? n) && (n <=? 13)) || ((28 <=? n) && (n <=? 32)))%nat.

Fixpoint map_chars (f : ascii -> ascii) (s : string) : string :=
  match s with
  | EmptyString => EmptyString
  | String c s' => String (f c) (map_chars f s')
  end.

(** The byte is the one given by its number. *)
Definition is_byte (n : nat) (c : ascii) : bool := (nat_of_ascii c =? n)%nat.

(** Every character of [s] is an ASCII character: a byte below 128. *)
Fixpoint is_ascii (s : string) : bool :=
  match s with
  | EmptyString => true
  | String c s' => (nat_of_ascii c <? 128)%nat && is_ascii s'
  end.

(** The lower case of one byte of the UTF-8 text: of an ASCII letter, and,
    after the lead byte C3, of the second byte of a capital letter of
    Latin-1 (U+00C0 to U+00DE, but the sign U+00D7), which is 32 further. *)
Definition lower_byte (after_c3 : bool) (c : ascii) : ascii :=
  let n := nat_of_ascii c in
  if after_c3 && ((128 <=? n) && (n <=? 158) && negb (n =? 151))%nat
  then ascii_of_nat (n + 32)
  else lower_char c.

Fixpoint lower_from (after_c3 : bool) (s : string) : string :=
  match s with
  | EmptyString => EmptyString
  | String c s' => String (lower_byte after_c3 c) (lower_from (is_byte 195 c) s')
  end.

(** [s.lower()], on text of code points up to U+00FF: ASCII and the
    Latin-1 supplement.  Other code points are left as they are. *)
Definition lower (s : string) : string := lower_from false s.

(** The upper case of the Latin-1 letter of bytes C3 [b]: SS for the sharp
    s (U+00DF), U+0178 for the y with diaeresis (U+00FF), the letter 32
    before for the small letters U+00E0 to U+00FE (but the sign U+00F7),
    and the letter itself otherwise. *)
Definition upper_latin1 (b : ascii) : string :=
  let n := nat_of_ascii b in
  if (n =? 159)%nat then String "S" (String "S" EmptyString)
  else if (n =? 191)%nat
  then String (ascii_of_nat 197) (String (ascii_of_nat 184) EmptyString)
  else if ((160 <=? n) && (n <=? 190) && negb (n =? 183))%nat
  then String (ascii_of_nat 195) (String (ascii_of_nat (n - 32)) EmptyString)
  else String (ascii_of_nat 195) (String b EmptyString).

(** [s.upper()], on text of code points up to U+00FF: ASCII letters, the
    letters of Latin-1 after the lead byte C3, and the micro sign U+00B5
    (bytes C2 B5), whose upper case is U+039C (bytes CE 9C).  Other code
    points are left as they are. *)
Fixpoint upper (s : string) : string :=
  match s with
  | EmptyString => EmptyString
  | String a t =>
      match t with
      | EmptyString => String (upper_char a) EmptyString
      | String b s' =>
          if is_byte 195 a then (upper_latin1 b ++ upper s')%string
          else if is_byte 194 a && is_byte 181 b
          then String (ascii_of_nat 206) (String (ascii_of_nat 156) (upper s'))
          else String (upper_char a) (upper t)
      end
  end.

(** [s.replace(old, new)] for a pattern [old] of one character. *)
Fixpoint replace (old : ascii) (new : string) (s : string) : string :=
  match s with
  | EmptyString => EmptyString
  | String c s' =>
      if Ascii.eqb c old then (new ++ replace old new s')%string
      else String c (replace old new s')
  end.

(** [len(s)] in bytes: the length of an ASCII string, and zero exactly
    when the string is empty, which is all that [lookup] asks of it. *)
Definition len (s : string) : nat := String.length s.

(** [s.startswith(p)] *)
Fixpoint startswith (s p : string) : bool :=
  match p, s with
  | EmptyString, _ => true
  | String _ _, EmptyString => false
  | String a p', String b s' => Ascii.eqb a b && startswith s' p'
  end.

(** [s.endswith(p)]: some tail of [s] is [p]. *)
Fixpoint endswith (s p : string) : bool :=
  String.eqb s p ||
  match s with
  | EmptyString => false
  | String _ s' => endswith s' p
  end.

(** [p in s] for strings: [p] occurs in [s] as a substring. *)
Fixpoint contains (s p : string) : bool :=
  startswith s p ||
  match s with
  | EmptyString => false
  | String _ s' => contains s' p
  end.

(** [s[1:]], for a string that starts with an ASCII character, as
    where [lookup] takes it: after [startswith("*")]. *)
Definition drop_first (s : string) : string :=
  match s with
  | EmptyString => EmptyString
  | String _ s' => s'
  end.

(** [s[:-1]], for a string that ends with an ASCII character, as where
    [lookup] takes it: after [endswith("*")]. *)
Fixpoint drop_last (s : string) : string :=
  match s with
  | EmptyString => EmptyString
  | String c s' =>
      match s' with
      | EmptyString => EmptyString
      | String _ _ => String c (drop_last s')
      end
  end.

(** The number of bytes of the white-space character that [s] starts
    with, and 0 when it starts with none.  The white space of [str.split]:
    the ASCII one, then U+0085 and U+00A0 (C2 85, C2 A0), U+1680
    (E1 9A 80), U+2000 to U+200A, U+2028, U+2029 and U+202F (E2 80 80 to
    E2 80 8A, E2 80 A8, E2 80 A9, E2 80 AF), U+205F (E2 81 9F) and U+3000
    (E3 80 80). *)
Definition space_width (s : string) : nat :=
  match s with
  | EmptyString => 0
  | String a t =>
      if isspace a then 1
      else
        match t with
        | EmptyString => 0
        | String b u =>
            if is_byte 194 a && (is_byte 133 b || is_byte 160 b) then 2
            else
              match u with
              | EmptyString => 0
              | String c _ =>
                  let n := nat_of_ascii c in
                  if is_byte 225 a && is_byte 154 b && is_byte 128 c then 3
                  else if is_byte 226 a && is_byte 128 b
                          && (((128 <=? n) && (n <=? 138))
                              || (n =? 168) || (n =? 169) || (n =? 175))%nat
                  then 3
                  else if is_byte 226 a && is_byte 129 b && is_byte 159 c then 3
                  else if is_byte 227 a && is_byte 128 b && is_byte 128 c then 3
                  else 0
              end
        end
  end.

(** [s.split()]: the maximal runs of characters that are not white space.
    [cur] is the run being read, if any; [skip] counts the bytes still to
    pass of a white-space character of several bytes. *)
Definition flush (cur : option string) : list string :=
  match cur with
  | Some w => [w]
  | None => []
  end.

Definition grow (cur : option string) (c : ascii) : option string :=
  match cur with
  | Some w => Some (w ++ String c EmptyString)%string
  | None => Some (String c EmptyString)
  end.

Fixpoint split_from (skip : nat) (cur : option string) (s : string)
  : list string :=
  match s with
  | EmptyString => flush cur
  | String c s' =>
      match skip with
      | S k => split_from k cur s'
      | O =>
          match space_width s with
          | O => split_from 0 (grow cur c) s'
          | S k => flush cur ++ split_from k None s'
          end
      end
  end.

Definition split (s : string) : list string := split_from 0 None s.

(** [w in ws] for a list of strings *)
Definition in_list (w : string) (ws : list string) : bool :=
  existsb (String.eqb w) ws.

End Py.

(** ** Data model *)

(** [Card = namedtuple("Card", ["name", "lang", "set_code", "set_name", "set_type"])] *)
Record Card : Type := mkCard {
  name : string;
  lang : string;
  set_code : string;
  set_name : string;
  set_type : string
}.

(** One object of the catalogue file, with the keys the build reads:
    ["name"], ["lang"], ["set"], ["set_name"], ["set_type"] and ["games"]. *)
Record Entry : Type := mkEntry {
  e_name : string;
  e_lang : string;
  e_set : string;
  e_set_name : string;
  e_set_type : string;
  e_games : list string
}.

(** [self._cards_map]: a dictionary from normalised names to lists of cards,
    in insertion order. *)
Abbreviation cards_map := (list (string * list Card)).

(** [d.get(k)] *)
Fixpoint dict_get (k : string) (d : cards_map) : option (list Card) :=
  match d with
  | [] => None
  | (k', cs) :: d' => if String.eqb k' k then Some cs else dict_get k d'
  end.

(** [d[k].append(c)] where [d] is a [defaultdict(list)]: a missing key is
    created, at the end of the dictionary, with the list [[c]]; the list of
    an existing key is extended in place. *)
Fixpoint dict_append (k : string) (c : Card) (d : cards_map) : cards_map :=
  match d with
  | [] => [(k, [c])]
  | (k', cs) :: d' =>
      if String.eqb k' k then (k', cs ++ [c]) :: d'
      else (k', cs) :: dict_append k c d'
  end.

(** The cards the generator [all_cards] yields when nothing changes the
    dictionary while it runs: the lists of [_cards_map.values()], one after
    the other. *)
Definition all_cards (d : cards_map) : list Card := concat (map snd d).

Record ScryfallDB : Type := mkDB {
  _cards_map : cards_map;
  _expansion_codename_map : gmap string string
}.

(** ** Building the index *)

(** [make_dbentry] *)
Definition make_dbentry (name : string) : string :=
  Py.replace " " "-" (Py.lower name).

(** The test of [_load_cards_from_db] that skips an entry available on
    Magic Online only: [games] is a list of one element, ["mtgo"]. *)
Definition mtgo_only (games : list string) : bool :=
  match games with
  | [g] => String.eqb g "mtgo"
  | _ => false
  end.

Definition skipped (e : Entry) : bool :=
  negb (String.eqb (e_lang e) "en") || mtgo_only (e_games e).

Definition card_of_entry (e : Entry) : Card :=
  {| name := e_name e; lang := e_lang e; set_code := e_set e;
     set_name := e_set_name e; set_type := e_set_type e |}.

(** One turn of the loop of [_load_cards_from_db]. *)
Definition load_entry (d : cards_map) (e : Entry) : cards_map :=
  if skipped e then d
  else
    let c := card_of_entry e in
    dict_append (make_dbentry (name c)) c d.

Definition _load_cards_from_db (db : list Entry) : cards_map :=
  fold_left load_entry db [].

(** [_load_codename_map]: the (code, name) pairs of all cards, turned into a
    dictionary.  Python collects the pairs in a [set], whose iteration order
    is unspecified; the keys of the result do not depend on it, and here the
    pairs are taken in the order of [all_cards]. *)
Definition _load_codename_map (d : cards_map) : gmap string string :=
  fold_left (fun acc c => <[set_code c := set_name c]> acc) (all_cards d) ∅.

(** [ScryfallDB.__init__] once [self._db] is the catalogue [db]: given as
    [db_preloaded] when it is not empty, read from the file otherwise. *)
Definition init (db : list Entry) : ScryfallDB :=
  let d := _load_cards_from_db db in
  {| _cards_map := d; _expansion_codename_map := _load_codename_map d |}.

(** The property [expansion_codename_map], which reloads an empty table. *)
Definition expansion_codename_map (self : ScryfallDB) : gmap string string :=
  if bool_decide (_expansion_codename_map self = ∅)
  then _load_codename_map (_cards_map self)
  else _expansion_codename_map self.

(** [add_expansion_code] *)
Definition add_expansion_code (self : ScryfallDB) (codename : string * string)
  : ScryfallDB :=
  let (code, sname) := codename in
  {| _cards_map := _cards_map self;
     _expansion_codename_map := <[code := sname]> (expansion_codename_map self) |}.

(** ** Lookup *)

(** Exceptions a lookup can raise. [TypeError] is the one of
    [functools.reduce] on an empty sequence without initial value. *)
Inductive exn : Type := TypeError.

(** What running a piece of the code gives: a value, an exception, or no
    answer within the fuel granted. *)
Inductive outcome (A : Type) : Type :=
| Returns (a : A)
| Raises (e : exn)
| OutOfFuel.
Arguments Returns {A} a.
Arguments Raises {A} e.
Arguments OutOfFuel {A}.

(** The [ValueError] object that [lookup] returns, with its message. *)
Record ValueError : Type := mkValueError { message : string }.

(** A value returned by [lookup]: the cards of the iterator, in order, or
    the [ValueError] object. *)
Inductive result : Type :=
| Cards (cs : list Card)
| Invalid (e : ValueError).

Definition allowed_set_types : list string :=
  ["promo"; "expansion"; "memorabilia"; "premium_deck"; "funny"].

(** [str] of the tuple [allowed_set_types], as the f-string prints it. *)
Definition allowed_repr : string :=
  "('promo', 'expansion', 'memorabilia', 'premium_deck', 'funny')".

Definition not_recognised (set_type : string) : ValueError :=
  {| message := ("Input set type " ++ set_type ++
                 " Not Recognised. Values allowed are " ++ allowed_repr)%string |}.

(** [set_type and not set_type in allowed_set_types] *)
Definition rejected (set_type : option string) : bool :=
  match set_type with
  | None => false
  | Some t => negb (String.eqb t "") && negb (Py.in_list t allowed_set_types)
  end.

(** [functools.reduce(op, xs)] without initial value; [None] stands for the
    [TypeError] raised on an empty sequence. *)
Definition reduce {A : Type} (op : A -> A -> A) (xs : list A) : option A :=
  match xs with
  | [] => None
  | x :: xs' => Some (fold_left op xs' x)
  end.

(** [_isin] *)
Definition _isin (card_name db_entry : string) : option bool :=
  let db_entry_words := Py.split (Py.lower db_entry) in
  reduce andb
    (map (fun n => Py.in_list n db_entry_words) (Py.split (Py.lower card_name))).

(** The filter function [f] that the shape of [card_name] selects. *)
Definition matcher (card_name : string) (c : Card) : option bool :=
  if Py.startswith card_name "*" && Py.endswith card_name "*" then
    let term := Py.lower (Py.drop_last (Py.drop_first card_name)) in
    Some (Py.startswith (Py.lower (name c)) term
          || Py.endswith (Py.lower (name c)) term)
  else if Py.startswith card_name "*" then
    let term := Py.lower (Py.drop_first card_name) in
    Some (Py.endswith (Py.lower (name c)) term)
  else if Py.endswith card_name "*" then
    let term := Py.lower (Py.drop_last card_name) in
    Some (Py.startswith (Py.lower (name c)) term)
  else _isin card_name (name c).

(** The cards pool of reference: all cards, or the double ones. *)
Definition in_pool (doubles_only : bool) (c : Card) : bool :=
  if doubles_only then Py.contains (name c) "//" else true.

(** The list object that the variable [entries] of [lookup] is bound to:
    the list stored in [_cards_map] under a key (what [dict.get] returns for
    a key that is present), or the new list [[]] given as default. *)
Inductive ref : Type :=
| Stored (key : string)
| Fresh.

(** The objects [lookup] can change: the dictionary with its lists, and the
    new list. *)
Record heap : Type := mkHeap {
  store : cards_map;
  fresh : list Card
}.

Definition deref (r : ref) (h : heap) : list Card :=
  match r with
  | Stored k => default [] (dict_get k (store h))
  | Fresh => fresh h
  end.

(** [entries.append(c)], on the object [entries] is bound to. *)
Definition append (r : ref) (c : Card) (h : heap) : heap :=
  match r with
  | Stored k => {| store := dict_append k c (store h); fresh := fresh h |}
  | Fresh => {| store := store h; fresh := fresh h ++ [c] |}
  end.

(** [entries.extend(filter(f, cards_pool))].  Both [filter] objects and the
    generator [all_cards] are lazy: [extend] asks for one card at a time and
    appends it before asking for the next.  The generator is at list [i] of
    [_cards_map.values()] and at index [j] of that list, and reads the list
    as it is when it is asked. One unit of fuel is one request to a list
    iterator. *)
Fixpoint extend (fuel : nat) (r : ref) (pool : Card -> bool)
    (f : Card -> option bool) (i j : nat) (h : heap) : outcome unit * heap :=
  match fuel with
  | O => (OutOfFuel, h)
  | S fuel' =>
      match store h !! i with
      | None => (Returns tt, h)
      | Some (_, cards) =>
          match cards !! j with
          | None => extend fuel' r pool f (S i) 0 h
          | Some c =>
              if pool c then
                match f c with
                | None => (Raises TypeError, h)
                | Some true => extend fuel' r pool f i (S j) (append r c h)
                | Some false => extend fuel' r pool f i (S j) h
                end
              else extend fuel' r pool f i (S j) h
          end
      end
  end.

(** [_result_set], as the list of the cards the generator yields. *)
Definition _result_set (entries : list Card) : list Card :=
  match entries with
  | [] => []
  | _ :: _ => entries
  end.

(** [filter_func] of the lookup by set code [code]. *)
Definition filter_func (self : ScryfallDB) (code : string) (c : Card) : bool :=
  if bool_decide (is_Some (_expansion_codename_map self !! code))
  then String.eqb (set_code c) code
  else Py.startswith (set_code c) code.

(** [dict.setdefault] on a dictionary kept in insertion order. *)
Definition setdefault (k : string) (v : Card) (d : list (string * Card))
  : list (string * Card) :=
  if existsb (fun kv => String.eqb (fst kv) k) d then d else d ++ [(k, v)].

(** The pass "filter unique values". *)
Definition unique_values (entries : list Card) : list Card :=
  let entries_map := fold_left (fun d e => setdefault (name e) e d) entries [] in
  map snd entries_map.

(** The end of [lookup], after the lookup by set code: the lookup by set
    type [stype], the unique values, the result set. *)
Definition finish (unique : bool) (stype : option string)
    (entries : list Card) : list Card :=
  let entries :=
    match stype with
    | Some t => List.filter (fun c => String.eqb (set_type c) t) entries
    | None => entries
    end in
  let entries := if unique then unique_values entries else entries in
  _result_set entries.

(** [lookup] from the comment "Lookup by set_code" on. *)
Definition select (self : ScryfallDB) (unique : bool)
    (set_code set_type : option string) (entries : list Card) : list Card :=
  match set_code with
  | Some sc =>
      match List.filter (filter_func self sc) entries with
      | [] => _result_set []
      | entries_set => finish unique set_type entries_set
      end
  | None => finish unique set_type entries
  end.

(** [is_card]: the name, when one is given and something is left of it
    without its stars. *)
Definition name_criterion (card_name : option string) : option string :=
  match card_name with
  | Some n => if (0 <? Py.len (Py.replace "*" "" n))%nat then Some n else None
  | None => None
  end.

Definition with_store (self : ScryfallDB) (h : heap) : ScryfallDB :=
  {| _cards_map := store h;
     _expansion_codename_map := _expansion_codename_map self |}.

Definition is_nil {A : Type} (l : list A) : bool :=
  match l with
  | [] => true
  | _ :: _ => false
  end.

(** [ScryfallDB.lookup]: what the call gives, and the object afterwards. *)
Definition lookup (fuel : nat) (self : ScryfallDB) (card_name : option string)
    (expand_search doubles_only unique : bool)
    (set_code set_type : option string) : outcome result * ScryfallDB :=
  if rejected set_type then
    (Returns (Invalid (not_recognised (default "" set_type))), self)
  else
    let is_card := bool_decide (is_Some (name_criterion card_name)) in
    let is_set := bool_decide (is_Some set_code) in
    let is_set_type := bool_decide (is_Some set_type) in
    if negb (is_card || is_set || is_set_type) then
      (Returns (Cards (_result_set [])), self)
    else
      match name_criterion card_name with
      | Some card_name =>
          let card_dbentry := make_dbentry card_name in
          let entries :=
            match dict_get card_dbentry (_cards_map self) with
            | Some _ => Stored card_dbentry
            | None => Fresh
            end in
          let h := {| store := _cards_map self; fresh := [] |} in
          if is_nil (deref entries h) && negb expand_search then
            (Returns (Cards (_result_set [])), self)
          else if expand_search then
            match extend fuel entries (in_pool doubles_only)
                         (matcher card_name) 0 0 h with
            | (Returns _, h') =>
                (Returns (Cards (select self unique set_code set_type
                                        (deref entries h'))),
                 with_store self h')
            | (Raises e, h') => (Raises e, with_store self h')
            | (OutOfFuel, h') => (OutOfFuel, with_store self h')
            end
          else
            (Returns (Cards (select self unique set_code set_type
                                    (deref entries h))), self)
      | None =>
          (Returns (Cards (select self unique set_code set_type
                                  (all_cards (_cards_map self)))), self)
      end.

(** [__getitem__] and [__contains__], on an index that the call leaves as
    it was. *)
Definition lookup_name (self : ScryfallDB) (card_name : string)
  : outcome result * ScryfallDB :=
  lookup 0 self (Some card_name) false false false None None.

(** ** A small catalogue to run the code on *)

Definition entry (n code sname stype : string) (games : list string) : Entry :=
  {| e_name := n; e_lang := "en"; e_set := code; e_set_name := sname;
     e_set_type := stype; e_games := games |}.

Definition ice : Entry := entry "Ice" "tst" "Test Set" "expansion" ["paper"].
Definition fire_ice : Entry :=
  entry "Fire // Ice" "apc" "Apocalypse" "expansion" ["paper"; "mtgo"].
Definition hammer_mir : Entry :=
  entry "Hammer of Bogardan" "mir" "Mirage" "expansion" ["paper"].
Definition hammer_wc97 : Entry :=
  entry "Hammer of Bogardan" "wc97" "World Championship Decks 1997"
        "memorabilia" ["paper"].
Definition hammer_online : Entry :=
  entry "Hammer of Bogardan" "me2" "Masters Edition II" "masters" ["mtgo"].

Definition small_db : ScryfallDB :=
  init [ice; fire_ice; hammer_mir; hammer_wc97; hammer_online].




(** A card whose name is a star. *)
Definition star : Entry := entry "*" "tst" "Test Set" "funny" ["paper"].

(** ** Notions used to state the properties *)

(** The same change made to the cards of a result, whatever else the call
    gave. *)
Definition on_cards (g : list Card -> list Card)
    (x : outcome result * ScryfallDB) : outcome result * ScryfallDB :=
  match x with
  | (Returns (Cards cs), self') => (Returns (Cards (g cs)), self')
  | _ => x
  end.

(** The candidates of a lookup: what the name alone selects, and all the
    cards of the index when no name is given. *)
Definition candidates (fuel : nat) (self : ScryfallDB)
    (card_name : option string) (expand_search doubles_only : bool)
  : outcome result * ScryfallDB :=
  match name_criterion card_name with
  | Some _ => lookup fuel self card_name expand_search doubles_only false None None
  | None => (Returns (Cards (all_cards (_cards_map self))), self)
  end.

(** Keeping, in order, the first card seen for each name: [seen] holds the
    names met so far. *)
Fixpoint first_seen (seen : list string) (cs : list Card) : list Card :=
  match cs with
  | [] => []
  | c :: cs' =>
      if Py.in_list (name c) seen then first_seen seen cs'
      else c :: first_seen (name c :: seen) cs'
  end.

Definition first_by_name (cs : list Card) : list Card := first_seen [] cs.

(** The exact matches of a name: the cards filed under its key. *)
Definition exact_matches (self : ScryfallDB) (n : string) : list Card :=
  default [] (dict_get (make_dbentry n) (_cards_map self)).

(** The candidates that pass the test on the set code, when one is given:
    equality with the code when it is a key of the table of set codes, and
    otherwise that the set code of the card starts with it. *)
Definition by_set_code (self : ScryfallDB) (code : option string)
    (cs : list Card) : list Card :=
  match code with
  | Some sc =>
      List.filter
        (fun c => if bool_decide (is_Some (_expansion_codename_map self !! sc))
                  then String.eqb (set_code c) sc
                  else Py.startswith (set_code c) sc) cs
  | None => cs
  end.

(** The candidates of the set type, when one is given. *)
Definition by_set_type (stype : option string) (cs : list Card) : list Card :=
  match stype with
  | Some t => List.filter (fun c => String.eqb (set_type c) t) cs
  | None => cs
  end.

(** What is to be returned for the candidates [cs]: those that pass the
    set-code test, then the set-type test, reduced with [unique] to the
    first card of each name. *)
Definition passes (self : ScryfallDB) (unique : bool)
    (code stype : option string) (cs : list Card) : list Card :=
  let kept := by_set_type stype (by_set_code self code cs) in
  if unique then first_by_name kept else kept.

(** The platforms of an entry, as a set, are exactly those of [ps]. *)
Definition platforms_are (e : Entry) (ps : list string) : Prop :=
  forall g, In g (e_games e) <-> In g ps.

(** Every character of [s] is white space. *)
Fixpoint all_space (s : string) : bool :=
  match s with
  | EmptyString => true
  | String c s' => Py.isspace c && all_space s'
  end.

(** The card is one the expanded search selects. *)
Definition selected (doubles_only : bool) (card_name : string) (c : Card) : bool :=
  in_pool doubles_only c && bool_decide (matcher card_name c = Some true).

(** The card is in the list stored under the key of its name. *)
Definition indexed (d : cards_map) (c : Card) : Prop :=
  exists cs, dict_get (make_dbentry (name c)) d = Some cs /\ In c cs.

(** The expanded search over the cards [cs], one after the other, on a
    list [acc] that is not one of those walked: what [extend] does when the
    dictionary does not change under it. *)
Fixpoint scan (pool : Card -> bool) (f : Card -> option bool)
    (cs : list Card) (acc : list Card) : outcome unit * list Card :=
  match cs with
  | [] => (Returns tt, acc)
  | c :: cs' =>
      if pool c then
        match f c with
        | None => (Raises TypeError, acc)
        | Some true => scan pool f cs' (acc ++ [c])
        | Some false => scan pool f cs' acc
        end
      else scan pool f cs' acc
  end.

(** The generator, at index [j] of list [i], has not passed index [j'] of
    list [i']. *)
Definition ahead (i j i' j' : nat) : Prop := i < i' \/ (i = i' /\ j <= j').

(** The cards the generator [all_cards] still has to yield from index [j]
    of list [i] on, on a dictionary that does not change. *)
Definition rest (d : cards_map) (i j : nat) : list Card :=
  drop j (default [] (snd <$> d !! i)) ++ all_cards (drop (S i) d).

(** Requests to list iterators that [extend] makes on the way, at most, on
    a dictionary that does not change. *)
Definition requests (d : cards_map) : nat := length (all_cards d) + length d + 1.

(** ** The other methods of [ScryfallDB] *)

(** [__len__]: [sum(map(len, self._cards_map.values()))] *)
Definition __len__ (self : ScryfallDB) : nat :=
  fold_right Nat.add 0 (map (fun kv => length (snd kv)) (_cards_map self)).

(** [__iter__] *)
Definition __iter__ (self : ScryfallDB) : list Card :=
  all_cards (_cards_map self).

(** [tuple(x)] on what a lookup gave: the cards of the iterator; the
    [ValueError] object is not iterable, and [tuple] raises [TypeError] on
    it. *)
Definition tuple_of (x : outcome result * ScryfallDB)
  : outcome (list Card) * ScryfallDB :=
  match x with
  | (Returns (Cards cs), self') => (Returns cs, self')
  | (Returns (Invalid _), self') => (Raises TypeError, self')
  | (Raises e, self') => (Raises e, self')
  | (OutOfFuel, self') => (OutOfFuel, self')
  end.

(** [__getitem__] *)
Definition __getitem__ (self : ScryfallDB) (card_name : string)
  : outcome (list Card) * ScryfallDB :=
  tuple_of (lookup_name self card_name).

(** [__contains__] *)
Definition __contains__ (self : ScryfallDB) (card_name : string)
  : outcome bool * ScryfallDB :=
  match tuple_of (lookup_name self card_name) with
  | (Returns cs, self') => (Returns (0 <? length cs)%nat, self')
  | (Raises e, self') => (Raises e, self')
  | (OutOfFuel, self') => (OutOfFuel, self')
  end.

(** The key a card is filed under. *)
Definition key_of (c : Card) : string := make_dbentry (name c).

(** The cards of the entries of a catalogue that the build does not skip,
    in the order of the catalogue. *)
Definition kept_cards (db : list Entry) : list Card :=
  map card_of_entry (List.filter (fun e => negb (skipped e)) db).

(** The dictionary is one the build can make: its keys are distinct, none
    of its lists is empty, and each card is in the list of its key. *)
Definition well_filed (d : cards_map) : Prop :=
  NoDup (map fst d)
  /\ Forall (fun kv => snd kv <> []
                       /\ Forall (fun c => key_of c = fst kv) (snd kv)) d.

(** [replace(" ", "-")] on one character. *)
Definition hyphen_for_space (c : ascii) : ascii :=
  if Ascii.eqb c " " then "-"%char else c.

(** * Properties *)

Example split_example :
  Py.split "  Fire  // Ice " = ["Fire"; "//"; "Ice"].
Proof. reflexivity. Qed.

Example endswith_example :
  Py.endswith "verdant spring" "spring" = true /\ Py.endswith "spring" "springs" = false.
Proof. split; reflexivity. Qed.

Example drop_last_example : Py.drop_last (Py.drop_first "*spring*") = "spring".
Proof. reflexivity. Qed.

Example lower_latin1_example : Py.lower "Æther Vial" = "æther vial".
Proof. reflexivity. Qed.

Example upper_sharp_s_example : Py.upper "Straße" = "STRASSE".
Proof. reflexivity. Qed.

Example split_no_break_space_example :
  Py.split "Fire // Ice" = ["Fire"; "//"; "Ice"].
Proof. reflexivity. Qed.

(** ** Facts about the string primitives *)

Section CaseMaps.

Ltac by_cases_on c :=
  destruct c as [[] [] [] [] [] [] [] []]; vm_compute; reflexivity.

Lemma lower_char_upper_char c : Py.lower_char (Py.upper_char c) = Py.lower_char c.
Proof. by_cases_on c. Qed.

Lemma lower_char_lower_char c : Py.lower_char (Py.lower_char c) = Py.lower_char c.
Proof. by_cases_on c. Qed.

Lemma upper_char_star c : Ascii.eqb (Py.upper_char c) "*" = Ascii.eqb c "*".
Proof. by_cases_on c. Qed.

Lemma lower_char_star c : Ascii.eqb (Py.lower_char c) "*" = Ascii.eqb c "*".
Proof. by_cases_on c. Qed.

Lemma lower_char_space c : Py.isspace c = true -> Py.lower_char c = c.
Proof. destruct c as [[] [] [] [] [] [] [] []]; vm_compute; congruence. Qed.

Lemma star_not_space c : Py.isspace c = true -> Ascii.eqb c "*" = false.
Proof. destruct c as [[] [] [] [] [] [] [] []]; vm_compute; congruence. Qed.

End CaseMaps.

Lemma map_chars_compose f g s :
  Py.map_chars f (Py.map_chars g s) = Py.map_chars (fun c => f (g c)) s.
Proof. induction s as [|c s IH]; simpl; [reflexivity | now rewrite IH]. Qed.

Lemma map_chars_ext f g s :
  (forall c, f c = g c) -> Py.map_chars f s = Py.map_chars g s.
Proof.
  intros Hfg. induction s as [|c s IH]; simpl; [reflexivity|].
  now rewrite Hfg, IH.
Qed.

(** *** The case maps on bytes *)

Lemma lower_byte_idem b c :
  Py.lower_byte b (Py.lower_byte b c) = Py.lower_byte b c.
Proof.
  destruct b; destruct c as [[] [] [] [] [] [] [] []]; vm_compute; reflexivity.
Qed.

Lemma lower_byte_lead b c :
  Py.is_byte 195 (Py.lower_byte b c) = Py.is_byte 195 c.
Proof.
  destruct b; destruct c as [[] [] [] [] [] [] [] []]; vm_compute; reflexivity.
Qed.


Lemma ascii_no_lead c :
  (nat_of_ascii c <? 128)%nat = true ->
  Py.is_byte 195 c = false /\ Py.is_byte 194 c = false.
Proof.
  destruct c as [[] [] [] [] [] [] [] []]; vm_compute; intuition congruence.
Qed.

Lemma upper_char_ascii c :
  (nat_of_ascii c <? 128)%nat = true ->
  (nat_of_ascii (Py.upper_char c) <? 128)%nat = true.
Proof.
  destruct c as [[] [] [] [] [] [] [] []]; vm_compute; congruence.
Qed.

Lemma space_is_ascii c :
  Py.isspace c = true -> (nat_of_ascii c <? 128)%nat = true.
Proof.
  destruct c as [[] [] [] [] [] [] [] []]; vm_compute; congruence.
Qed.

(** On ASCII text [lower] and [upper] map each character. *)
Lemma lower_ascii s :
  Py.is_ascii s = true -> Py.lower s = Py.map_chars Py.lower_char s.
Proof.
  unfold Py.lower. induction s as [|c s IH]; [reflexivity|].
  intros H. apply andb_true_iff in H as [Hc Hs].
  cbn [Py.lower_from Py.map_chars].
  destruct (ascii_no_lead c Hc) as [-> _]. rewrite (IH Hs).
  unfold Py.lower_byte. reflexivity.
Qed.

Lemma upper_ascii s :
  Py.is_ascii s = true -> Py.upper s = Py.map_chars Py.upper_char s.
Proof.
  induction s as [|a t IH]; [reflexivity|].
  intros H. apply andb_true_iff in H as [Ha Ht].
  destruct (ascii_no_lead a Ha) as [H195 H194].
  destruct t as [|b s']; [reflexivity|].
  change (Py.upper (String a (String b s')))
    with (if Py.is_byte 195 a then (Py.upper_latin1 b ++ Py.upper s')%string
          else if Py.is_byte 194 a && Py.is_byte 181 b
               then String (ascii_of_nat 206)
                      (String (ascii_of_nat 156) (Py.upper s'))
               else String (Py.upper_char a) (Py.upper (String b s'))).
  rewrite H195, H194. cbn [andb]. now rewrite (IH Ht).
Qed.

Lemma map_upper_ascii s :
  Py.is_ascii s = true -> Py.is_ascii (Py.map_chars Py.upper_char s) = true.
Proof.
  induction s as [|c s IH]; [reflexivity|].
  intros H. apply andb_true_iff in H as [Hc Hs].
  cbn [Py.map_chars Py.is_ascii]. now rewrite (upper_char_ascii c Hc), (IH Hs).
Qed.

(** On ASCII text, the upper case has the lower case of the text. *)
Lemma lower_upper s : Py.is_ascii s = true -> Py.lower (Py.upper s) = Py.lower s.
Proof.
  intros H. rewrite (upper_ascii s H).
  rewrite (lower_ascii _ (map_upper_ascii s H)), (lower_ascii s H).
  rewrite map_chars_compose. apply map_chars_ext, lower_char_upper_char.
Qed.

Lemma lower_from_idem s : forall b,
  Py.lower_from b (Py.lower_from b s) = Py.lower_from b s.
Proof.
  induction s as [|c s IH]; intros b; [reflexivity|].
  cbn [Py.lower_from]. now rewrite lower_byte_idem, lower_byte_lead, IH.
Qed.

Lemma lower_lower s : Py.lower (Py.lower s) = Py.lower s.
Proof. apply lower_from_idem. Qed.

Lemma append_nil_l s : ("" ++ s)%string = s.
Proof. reflexivity. Qed.

(** Removing the stars commutes with a map on characters that neither
    makes nor unmakes a star; so the length left is the same. *)
Lemma len_without_stars_map f s :
  (forall c, Ascii.eqb (f c) "*" = Ascii.eqb c "*") ->
  Py.len (Py.replace "*" "" (Py.map_chars f s)) = Py.len (Py.replace "*" "" s).
Proof.
  intros Hf. unfold Py.len. induction s as [|c s IH]; simpl; [reflexivity|].
  rewrite Hf, !append_nil_l. destruct (Ascii.eqb c "*"); simpl; now rewrite IH.
Qed.

Lemma name_criterion_map f n :
  (forall c, Ascii.eqb (f c) "*" = Ascii.eqb c "*") ->
  name_criterion (Some (Py.map_chars f n))
  = option_map (Py.map_chars f) (name_criterion (Some n)).
Proof.
  intros Hf. unfold name_criterion. rewrite (len_without_stars_map f n Hf).
  destruct (0 <? _)%nat; reflexivity.
Qed.



Lemma make_dbentry_same_lower n m :
  Py.lower n = Py.lower m -> make_dbentry n = make_dbentry m.
Proof. unfold make_dbentry. now intros ->. Qed.

Lemma make_dbentry_upper n :
  Py.is_ascii n = true -> make_dbentry (Py.upper n) = make_dbentry n.
Proof. intros H. apply make_dbentry_same_lower. now apply lower_upper. Qed.

Lemma make_dbentry_lower n : make_dbentry (Py.lower n) = make_dbentry n.
Proof. unfold make_dbentry. now rewrite lower_lower. Qed.

(** [p in s] survives text put in front of [s]. *)
Lemma contains_app_r pre s p :
  Py.contains s p = true -> Py.contains (pre ++ s)%string p = true.
Proof.
  intros H. induction pre as [|c pre IH]; simpl; [exact H|].
  rewrite IH. apply orb_true_r.
Qed.

Lemma in_list_In w ws : Py.in_list w ws = true <-> In w ws.
Proof.
  unfold Py.in_list. rewrite existsb_exists. split.
  - intros (x & Hx & Heq). apply String.eqb_eq in Heq. now subst.
  - intros H. exists w. split; [exact H | apply String.eqb_refl].
Qed.

(** ** Lookups that do not expand the search *)

(** Without [expand_search] the code never runs [extend]: the fuel is not
    used and the object is left as it was. *)
Lemma lookup_plain fuel self card_name doubles_only unique code stype :
  lookup fuel self card_name false doubles_only unique code stype =
  (Returns
     (if rejected stype then Invalid (not_recognised (default "" stype))
      else
        match name_criterion card_name with
        | Some n =>
            Cards (select self unique code stype
                     (default [] (dict_get (make_dbentry n) (_cards_map self))))
        | None =>
            match code, stype with
            | None, None => Cards []
            | _, _ =>
                Cards (select self unique code stype (all_cards (_cards_map self)))
            end
        end), self).
Proof.
  unfold lookup. destruct (rejected stype); [reflexivity|].
  destruct (name_criterion card_name) as [n|] eqn:Hn; simpl.
  - destruct (dict_get (make_dbentry n) (_cards_map self)) as [cs|] eqn:Hget;
      simpl; rewrite ?Hget; simpl.
    + destruct cs; simpl; [|reflexivity].
      destruct code, unique, stype; reflexivity.
    + destruct code, unique, stype; reflexivity.
  - destruct code, stype; reflexivity.
Qed.

Lemma name_criterion_Some n n' : name_criterion (Some n) = Some n' -> n' = n.
Proof.
  unfold name_criterion. destruct (0 <? _)%nat; congruence.
Qed.

Lemma name_criterion_None card_name :
  card_name = None \/ (exists n, card_name = Some n /\ Py.replace "*" "" n = "") ->
  name_criterion card_name = None.
Proof.
  intros [-> | (n & -> & Hn)]; [reflexivity|].
  unfold name_criterion. now rewrite Hn.
Qed.

(** A lookup whose set type passed the check never returns the error
    object. *)
Lemma lookup_accepts fuel self card_name expand doubles unique code stype err :
  rejected stype = false ->
  fst (lookup fuel self card_name expand doubles unique code stype)
  <> Returns (Invalid err).
Proof.
  intros Hok. unfold lookup. rewrite Hok.
  destruct (negb _); [discriminate|].
  destruct (name_criterion card_name) as [n|]; [|discriminate].
  destruct (is_nil _ && negb expand); [discriminate|].
  destruct expand; [|discriminate].
  destruct (extend _ _ _ _ _ _ _) as [[[]| |] h']; discriminate.
Qed.

Lemma rejected_iff t :
  rejected (Some t) = true <-> t <> "" /\ ~ In t allowed_set_types.
Proof.
  unfold rejected. rewrite andb_true_iff, !negb_true_iff.
  rewrite String.eqb_neq. rewrite <- not_true_iff_false, in_list_In.
  reflexivity.
Qed.

Lemma message_lists_allowed t v :
  In v allowed_set_types -> Py.contains (message (not_recognised t)) v = true.
Proof.
  intros Hv. unfold not_recognised, message.
  do 3 apply contains_app_r.
  unfold allowed_set_types in Hv. simpl in Hv.
  destruct Hv as [<-|[<-|[<-|[<-|[<-|[]]]]]]; vm_compute; reflexivity.
Qed.

(** ** The claims *)

(** C2, as the code has it.  A set type that is not the empty string and is
    not one of promo, expansion, memorabilia, premium_deck, funny makes
    [lookup] return the [ValueError] object, whose message lists the allowed
    values, and leaves the index as it was; a set type that is one of the
    five, or the empty string, or absent, never gives that object. *)
Theorem set_type_validation fuel self card_name expand doubles unique code t :
  (t <> "" -> ~ In t allowed_set_types ->
   lookup fuel self card_name expand doubles unique code (Some t)
     = (Returns (Invalid (not_recognised t)), self)
   /\ forall v, In v allowed_set_types ->
        Py.contains (message (not_recognised t)) v = true)
  /\ (t = "" \/ In t allowed_set_types ->
      forall err,
        fst (lookup fuel self card_name expand doubles unique code (Some t))
        <> Returns (Invalid err))
  /\ (forall err,
        fst (lookup fuel self card_name expand doubles unique code None)
        <> Returns (Invalid err)).
Proof.
  split; [|split].
  - intros Hne Hnot. split; [|apply message_lists_allowed].
    unfold lookup.
    assert (rejected (Some t) = true) as -> by (now apply rejected_iff).
    reflexivity.
  - intros Hok err. apply lookup_accepts.
    apply not_true_iff_false. rewrite rejected_iff.
    intros [Hne Hnot]. destruct Hok; contradiction.
  - intros err. now apply lookup_accepts.
Qed.

(** C2, witness: the set type "notarealtype" of the test properties, and
    the set type "promo". *)
Lemma set_type_validation_witness :
  (lookup 0 small_db (Some "Ice") false false false None (Some "notarealtype")
     = (Returns (Invalid (not_recognised "notarealtype")), small_db)
   /\ forall v, In v allowed_set_types ->
        Py.contains (message (not_recognised "notarealtype")) v = true)
  /\ forall err,
       fst (lookup 0 small_db (Some "Ice") false false false None (Some "promo"))
       <> Returns (Invalid err).
Proof.
  destruct (set_type_validation 0 small_db (Some "Ice") false false false None
              "notarealtype") as (Hbad & _ & _).
  destruct (set_type_validation 0 small_db (Some "Ice") false false false None
              "promo") as (_ & Hgood & _).
  split.
  - apply Hbad; [discriminate|].
    simpl. intros [H|[H|[H|[H|[H|[]]]]]]; discriminate H.
  - apply Hgood. right. simpl. tauto.
Defined.

(** C2, as stated, fails for the empty string: it is none of the five
    allowed values, and the lookup gives an empty sequence of cards, not the
    error object. *)
Lemma empty_set_type_not_rejected :
  ~ In "" allowed_set_types
  /\ lookup 0 small_db None false false false None (Some "")
     = (Returns (Cards []), small_db).
Proof.
  split.
  - simpl. intros [H|[H|[H|[H|[H|[]]]]]]; discriminate H.
  - vm_compute. reflexivity.
Qed.




(** C8.  When the name is absent, or nothing is left of it once its stars
    are removed, and neither a set code nor a set type is given, the lookup
    gives the empty sequence, whatever the other flags, and leaves the index
    as it was. *)
Theorem lookup_without_criteria fuel self card_name expand doubles unique :
  card_name = None \/ (exists n, card_name = Some n /\ Py.replace "*" "" n = "") ->
  lookup fuel self card_name expand doubles unique None None
  = (Returns (Cards []), self).
Proof.
  intros H. apply name_criterion_None in H.
  unfold lookup. simpl rejected. cbv iota. now rewrite H.
Qed.

(** C8, witness: [lookup("*")]. *)
Lemma lookup_without_criteria_witness :
  lookup 0 small_db (Some "*") false false false None None
  = (Returns (Cards []), small_db).
Proof.
  apply (lookup_without_criteria 0 small_db (Some "*") false false false).
  right. exists "*". split; reflexivity.
Defined.

Example lookup_empty_name :
  lookup 0 small_db (Some "") false false false None None
  = (Returns (Cards []), small_db).
Proof. vm_compute. reflexivity. Qed.

(** ** The unique values *)

Lemma _result_set_id entries : _result_set entries = entries.
Proof. destruct entries; reflexivity. Qed.

Lemma setdefault_keys k d :
  existsb (fun kv : string * Card => String.eqb (fst kv) k) d
  = Py.in_list k (map fst d).
Proof.
  unfold Py.in_list. induction d as [|[k' v'] d IH]; simpl; [reflexivity|].
  now rewrite IH, String.eqb_sym.
Qed.

Lemma in_list_app w l1 l2 :
  Py.in_list w (l1 ++ l2) = Py.in_list w l1 || Py.in_list w l2.
Proof. apply existsb_app. Qed.

(** The dictionary of the pass holds, after the ones it had, the first card
    of each new name, in order. *)
Lemma unique_fold entries : forall d seen,
  (forall k, Py.in_list k seen = Py.in_list k (map fst d)) ->
  map snd (fold_left (fun d e => setdefault (name e) e d) entries d)
  = map snd d ++ first_seen seen entries.
Proof.
  induction entries as [|c cs IH]; intros d seen Hseen; simpl.
  - now rewrite app_nil_r.
  - unfold setdefault at 2. rewrite setdefault_keys, <- Hseen.
    destruct (Py.in_list (name c) seen) eqn:Hin.
    + now apply IH.
    + rewrite (IH _ (name c :: seen)).
      * rewrite map_app. simpl. now rewrite <- app_assoc.
      * intros k. rewrite map_app, in_list_app. simpl.
        rewrite <- Hseen. unfold Py.in_list. simpl.
        rewrite orb_false_r. apply orb_comm.
Qed.

Lemma unique_values_first entries : unique_values entries = first_by_name entries.
Proof.
  unfold unique_values, first_by_name.
  now rewrite (unique_fold entries [] []).
Qed.

Lemma first_seen_names cs : forall seen c,
  In c (first_seen seen cs) -> ~ In (name c) seen.
Proof.
  induction cs as [|x cs IH]; intros seen c; simpl; [tauto|].
  destruct (Py.in_list (name x) seen) eqn:Hin.
  - apply IH.
  - intros [<- | Hc].
    + rewrite <- in_list_In. congruence.
    + intros Hs. apply (IH _ _ Hc). now right.
Qed.

Lemma first_seen_NoDup cs : forall seen, NoDup (map name (first_seen seen cs)).
Proof.
  induction cs as [|x cs IH]; intros seen; simpl; [constructor|].
  destruct (Py.in_list (name x) seen); [apply IH|].
  simpl. apply NoDup_cons_2; [|apply IH].
  rewrite list_elem_of_In, in_map_iff. intros (c & Hname & Hc).
  apply first_seen_names in Hc. apply Hc. left. congruence.
Qed.

Lemma first_seen_sublist cs : forall seen, sublist (first_seen seen cs) cs.
Proof.
  induction cs as [|x cs IH]; intros seen; simpl; [constructor|].
  destruct (Py.in_list (name x) seen).
  - apply sublist_cons, IH.
  - apply sublist_skip, IH.
Qed.

(** A card is kept exactly when it stands in the sequence before which its
    name has not been seen. *)
Lemma first_seen_In cs : forall seen c,
  In c (first_seen seen cs) <->
  exists pre post, cs = pre ++ c :: post /\ ~ In (name c) (seen ++ map name pre).
Proof.
  induction cs as [|x cs IH]; intros seen c; simpl.
  - split; [tauto|]. intros (pre & post & H & _). now destruct pre.
  - destruct (Py.in_list (name x) seen) eqn:Hin.
    + rewrite IH. split.
      * intros (pre & post & -> & Hn). exists (x :: pre), post. split; [reflexivity|].
        simpl. rewrite in_app_iff in *. simpl. intros [H|[H|H]]; [tauto| |tauto].
        apply Hn. left. rewrite <- H. now apply in_list_In.
      * intros (pre & post & Heq & Hn). destruct pre as [|y pre]; simpl in *.
        -- injection Heq as -> ->. exfalso. apply Hn. rewrite app_nil_r.
           now apply in_list_In.
        -- injection Heq as -> ->. exists pre, post. split; [reflexivity|].
           rewrite in_app_iff in *. simpl in Hn. tauto.
    + simpl. rewrite IH. split.
      * intros [<- | (pre & post & -> & Hn)].
        -- exists [], cs. split; [reflexivity|]. simpl. rewrite app_nil_r.
           rewrite <- in_list_In. congruence.
        -- exists (x :: pre), post. split; [reflexivity|].
           simpl in *. rewrite in_app_iff in *. simpl in *. tauto.
      * intros (pre & post & Heq & Hn). destruct pre as [|y pre]; simpl in *.
        -- injection Heq as -> ->. now left.
        -- injection Heq as -> ->. right. exists pre, post.
           split; [reflexivity|]. simpl. rewrite in_app_iff in *. simpl in *. tauto.
Qed.

Lemma select_unique self code stype entries :
  select self true code stype entries
  = first_by_name (select self false code stype entries).
Proof.
  unfold select, finish. rewrite !_result_set_id.
  destruct code as [sc|].
  - destruct (List.filter _ entries) eqn:Hf; [reflexivity|].
    rewrite !_result_set_id. apply unique_values_first.
  - apply unique_values_first.
Qed.


(** ** The lookup by set code *)

Lemma is_Some_Some {A : Type} (x : A) : bool_decide (is_Some (Some x)) = true.
Proof. reflexivity. Qed.

Lemma is_Some_None {A : Type} : bool_decide (is_Some (@None A)) = false.
Proof. reflexivity. Qed.

Lemma startswith_prefix s : forall p,
  Py.startswith s p = true <-> exists r, s = (p ++ r)%string.
Proof.
  induction s as [|b s IH]; intros [|a p]; simpl.
  - split; [now exists ""|reflexivity].
  - split; [discriminate|]. intros (r & Hr). discriminate Hr.
  - split; [now exists (String b s)|reflexivity].
  - rewrite andb_true_iff, Ascii.eqb_eq, IH. split.
    + intros (-> & r & ->). now exists r.
    + intros (r & Hr). injection Hr as -> ->. split; [reflexivity|now exists r].
Qed.

Lemma finish_nil unique stype : finish unique stype [] = [].
Proof. destruct unique, stype; reflexivity. Qed.

Lemma select_by_code self unique sc stype entries :
  select self unique (Some sc) stype entries
  = finish unique stype (List.filter (filter_func self sc) entries).
Proof.
  unfold select. destruct (List.filter _ entries); [|reflexivity].
  now rewrite finish_nil.
Qed.

Lemma select_all self entries : select self false None None entries = entries.
Proof. unfold select, finish. apply _result_set_id. Qed.

Example set_code_as_prefix :
  fst (lookup 0 small_db (Some "HAMMEr of BOGardAn") false false false (Some "w") None)
  = Returns (Cards [card_of_entry hammer_wc97]).
Proof. vm_compute. reflexivity. Qed.

Example set_code_known :
  fst (lookup 0 small_db (Some "HAMMEr of BOGardAn") false false false (Some "mir") None)
  = Returns (Cards [card_of_entry hammer_mir]).
Proof. vm_compute. reflexivity. Qed.

(** ** The build of the index *)

Lemma dict_get_append_same k c d :
  dict_get k (dict_append k c d) = Some (default [] (dict_get k d) ++ [c]).
Proof.
  induction d as [|[k' cs] d IH]; simpl.
  - now rewrite String.eqb_refl.
  - destruct (String.eqb k' k) eqn:Hk; simpl; rewrite Hk; [reflexivity|exact IH].
Qed.

Lemma dict_get_append_other k k' c d :
  k <> k' -> dict_get k' (dict_append k c d) = dict_get k' d.
Proof.
  intros Hne. induction d as [|[k'' cs] d IH]; simpl.
  - apply String.eqb_neq in Hne. now rewrite Hne.
  - destruct (String.eqb k'' k) eqn:Hk; simpl.
    + apply String.eqb_eq in Hk as ->.
      apply String.eqb_neq in Hne. now rewrite Hne.
    + destruct (String.eqb k'' k'); [reflexivity|exact IH].
Qed.

Lemma all_cards_append k c d x :
  In x (all_cards (dict_append k c d)) <-> x = c \/ In x (all_cards d).
Proof.
  unfold all_cards. induction d as [|[k' cs] d IH]; simpl.
  - intuition congruence.
  - destruct (String.eqb k' k); simpl; rewrite !in_app_iff.
    + simpl. intuition congruence.
    + rewrite IH. tauto.
Qed.

Lemma dict_get_all_cards k d cs c :
  dict_get k d = Some cs -> In c cs -> In c (all_cards d).
Proof.
  unfold all_cards. induction d as [|[k' cs'] d IH]; simpl; [discriminate|].
  destruct (String.eqb k' k); intros Hget Hin; apply in_app_iff.
  - injection Hget as ->. now left.
  - right. now apply IH.
Qed.

Lemma indexed_append d k c x : indexed d x -> indexed (dict_append k c d) x.
Proof.
  intros (cs & Hget & Hin). unfold indexed.
  destruct (String.eqb_spec k (make_dbentry (name x))) as [->|Hne].
  - rewrite dict_get_append_same, Hget. simpl.
    eexists. split; [reflexivity|]. apply in_app_iff. now left.
  - rewrite (dict_get_append_other _ _ _ _ Hne). now exists cs.
Qed.

Lemma indexed_new d c : indexed (dict_append (make_dbentry (name c)) c d) c.
Proof.
  unfold indexed. rewrite dict_get_append_same.
  eexists. split; [reflexivity|]. apply in_app_iff. right. now left.
Qed.

Lemma load_entry_keeps d e x : indexed d x -> indexed (load_entry d e) x.
Proof.
  unfold load_entry. destruct (skipped e); [tauto|apply indexed_append].
Qed.

Lemma load_all_keeps db : forall d x,
  indexed d x -> indexed (fold_left load_entry db d) x.
Proof.
  induction db as [|e db IH]; intros d x Hx; simpl; [exact Hx|].
  now apply IH, load_entry_keeps.
Qed.

Lemma load_all_indexes db : forall d e,
  In e db -> skipped e = false ->
  indexed (fold_left load_entry db d) (card_of_entry e).
Proof.
  induction db as [|e' db IH]; intros d e Hin Hkept; simpl; [destruct Hin|].
  destruct Hin as [->|Hin]; [|now apply IH].
  apply load_all_keeps. unfold load_entry. rewrite Hkept. apply indexed_new.
Qed.

Lemma load_all_origin db : forall d c,
  In c (all_cards (fold_left load_entry db d)) ->
  In c (all_cards d)
  \/ exists e, In e db /\ skipped e = false /\ c = card_of_entry e.
Proof.
  induction db as [|e db IH]; intros d c Hc; simpl in *; [now left|].
  apply IH in Hc as [Hc | (e' & Hin & Hk & ->)].
  - unfold load_entry in Hc. destruct (skipped e) eqn:Hs; [now left|].
    apply all_cards_append in Hc as [-> | Hc]; [|now left].
    right. exists e. auto.
  - right. exists e'. auto.
Qed.

Lemma load_all_skip pre e post d :
  skipped e = true ->
  fold_left load_entry (pre ++ e :: post) d = fold_left load_entry (pre ++ post) d.
Proof.
  intros Hs. rewrite !fold_left_app. simpl.
  unfold load_entry at 2. now rewrite Hs.
Qed.

Lemma mtgo_only_iff games : mtgo_only games = true <-> games = ["mtgo"].
Proof.
  destruct games as [|g [|g' games]]; simpl; try (split; discriminate).
  rewrite String.eqb_eq. split; congruence.
Qed.

(** A list without repetition stands for the set {mtgo} exactly when it is
    the list of the one element "mtgo". *)
Lemma only_mtgo_as_set games :
  games = ["mtgo"] <->
  NoDup games /\ forall g, In g games <-> In g ["mtgo"].
Proof.
  split.
  - intros ->. split; [|tauto]. apply NoDup_singleton.
  - intros [Hnd Hset]. destruct games as [|g games].
    + exfalso. apply (Hset "mtgo"). now left.
    + assert (g = "mtgo") as ->.
      { destruct (proj1 (Hset g)) as [H|[]]; [now left|]. now symmetry. }
      destruct games as [|g' games]; [reflexivity|].
      assert (g' = "mtgo") as ->.
      { destruct (proj1 (Hset g')) as [H|[]]; [right; now left|]. now symmetry. }
      apply NoDup_cons_1_1 in Hnd. exfalso. apply Hnd. now left.
Qed.

Lemma skipped_false e :
  e_lang e = "en" -> ~ platforms_are e ["mtgo"] -> skipped e = false.
Proof.
  intros Hlang Hgames. unfold skipped. rewrite Hlang. simpl.
  apply not_true_iff_false. rewrite mtgo_only_iff. intros Heq.
  apply Hgames. unfold platforms_are. rewrite Heq. tauto.
Qed.

Lemma skipped_true e :
  e_lang e <> "en" \/ (NoDup (e_games e) /\ platforms_are e ["mtgo"]) ->
  skipped e = true.
Proof.
  unfold skipped. intros [Hlang | Hgames].
  - apply String.eqb_neq in Hlang. now rewrite Hlang.
  - apply orb_true_iff. right. apply mtgo_only_iff.
    now apply only_mtgo_as_set.
Qed.

Lemma skipped_false_inv e :
  skipped e = false -> e_lang e = "en" /\ e_games e <> ["mtgo"].
Proof.
  unfold skipped. intros H. apply orb_false_iff in H as [Hl Hg]. split.
  - apply negb_false_iff in Hl. now apply String.eqb_eq.
  - rewrite <- mtgo_only_iff. congruence.
Qed.

Lemma name_criterion_given n :
  Py.replace "*" "" n <> "" -> name_criterion (Some n) = Some n.
Proof.
  intros Hn. unfold name_criterion, Py.len.
  destruct (Py.replace "*" "" n); [congruence|reflexivity].
Qed.

(** C3, as the code has it.  An entry of the catalogue in English whose
    platforms are not exactly {mtgo}, and of whose name something is left
    once its stars are removed, has its card in the index, and the lookup
    of its name contains that card.  An entry in another language, or whose
    platforms (an array without repetition) are exactly {mtgo}, leaves the
    index as if the entry were not in the catalogue; and every card of the
    index is the card of an entry in English whose platforms are not the
    array ["mtgo"]. *)
Theorem build_retains_english_cards db e :
  (In e db -> e_lang e = "en" -> ~ platforms_are e ["mtgo"] ->
   Py.replace "*" "" (e_name e) <> "" ->
   In (card_of_entry e) (all_cards (_cards_map (init db)))
   /\ exists cs,
        lookup_name (init db) (e_name e) = (Returns (Cards cs), init db)
        /\ In (card_of_entry e) cs)
  /\ (forall pre post, db = pre ++ e :: post ->
        e_lang e <> "en" \/ (NoDup (e_games e) /\ platforms_are e ["mtgo"]) ->
        init db = init (pre ++ post))
  /\ (forall c, In c (all_cards (_cards_map (init db))) ->
        exists e', In e' db /\ e_lang e' = "en" /\ e_games e' <> ["mtgo"]
                   /\ c = card_of_entry e').
Proof.
  split; [|split].
  - intros Hin Hlang Hgames Hname.
    destruct (load_all_indexes db [] e Hin (skipped_false e Hlang Hgames))
      as (cs & Hget & Hcs).
    split.
    + exact (dict_get_all_cards _ _ _ _ Hget Hcs).
    + exists cs. split; [|exact Hcs].
      unfold lookup_name. rewrite lookup_plain. simpl rejected. cbv iota.
      rewrite (name_criterion_given _ Hname).
      change (make_dbentry (e_name e)) with (make_dbentry (name (card_of_entry e))).
      rewrite select_all.
      change (_cards_map (init db)) with (fold_left load_entry db []).
      now rewrite Hget.
  - intros pre post -> Hskip. apply skipped_true in Hskip.
    unfold init, _load_cards_from_db. now rewrite (load_all_skip _ _ _ _ Hskip).
  - intros c Hc. unfold init, _load_cards_from_db in Hc. cbn [_cards_map] in Hc.
    apply load_all_origin in Hc as [[] | (e' & Hin & Hk & ->)].
    apply skipped_false_inv in Hk as [Hl Hg]. exists e'. auto.
Qed.

(** C3, witness: the printing of Hammer of Bogardan in Mirage, and the one
    of Magic Online, which the build skips. *)
Lemma build_retains_english_cards_witness :
  (In (card_of_entry hammer_mir) (all_cards (_cards_map small_db))
   /\ exists cs,
        lookup_name small_db "Hammer of Bogardan" = (Returns (Cards cs), small_db)
        /\ In (card_of_entry hammer_mir) cs)
  /\ small_db = init [ice; fire_ice; hammer_mir; hammer_wc97].
Proof.
  split.
  - apply (build_retains_english_cards
             [ice; fire_ice; hammer_mir; hammer_wc97; hammer_online] hammer_mir).
    + simpl. tauto.
    + reflexivity.
    + intros H. destruct (proj1 (H "paper")) as [Hp|[]]; [now left|discriminate Hp].
    + discriminate.
  - destruct (build_retains_english_cards
                [ice; fire_ice; hammer_mir; hammer_wc97; hammer_online]
                hammer_online) as (_ & Hskip & _).
    apply (Hskip [ice; fire_ice; hammer_mir; hammer_wc97] []); [reflexivity|].
    right. split; [apply NoDup_singleton|]. intros g. reflexivity.
Defined.

(** C3, as stated, fails for a name made of stars: the card of the entry is
    in the index, and the lookup of its name is empty. *)
Lemma star_named_card_not_found :
  In star [star] /\ e_lang star = "en" /\ ~ platforms_are star ["mtgo"]
  /\ In (card_of_entry star) (all_cards (_cards_map (init [star])))
  /\ lookup_name (init [star]) (e_name star) = (Returns (Cards []), init [star]).
Proof.
  split; [now left|]. split; [reflexivity|]. split.
  - intros H. destruct (proj1 (H "paper")) as [Hp|[]]; [now left|discriminate Hp].
  - split; [now left|]. vm_compute. reflexivity.
Qed.

(** ** The expanded search *)

Lemma rest_end (d : cards_map) i j : d !! i = None -> rest d i j = [].
Proof.
  intros Hi. unfold rest. rewrite Hi. simpl.
  apply lookup_ge_None in Hi.
  rewrite drop_nil, drop_ge by lia. reflexivity.
Qed.

Lemma all_cards_drop (d : cards_map) i :
  all_cards (drop i d) = rest d i 0.
Proof.
  unfold rest. rewrite drop_0.
  destruct (d !! i) as [[k cs]|] eqn:Hi.
  - now rewrite (drop_S _ _ _ Hi).
  - apply lookup_ge_None in Hi.
    rewrite !drop_ge by lia. reflexivity.
Qed.

Lemma rest_next_list (d : cards_map) i j k (cards : list Card) :
  d !! i = Some (k, cards) -> cards !! j = None -> rest d i j = rest d (S i) 0.
Proof.
  intros Hi Hj. rewrite <- all_cards_drop. unfold rest. rewrite Hi. simpl.
  apply lookup_ge_None in Hj. now rewrite drop_ge by lia.
Qed.

Lemma rest_next_card (d : cards_map) i j k (cards : list Card) c :
  d !! i = Some (k, cards) -> cards !! j = Some c ->
  rest d i j = c :: rest d i (S j).
Proof.
  intros Hi Hj. unfold rest. rewrite Hi. simpl.
  now rewrite (drop_S _ _ _ Hj).
Qed.

Lemma rest_start (d : cards_map) : rest d 0 0 = all_cards d.
Proof. rewrite <- all_cards_drop. now rewrite drop_0. Qed.

(** While no card is appended to a list of the dictionary, [extend] is
    [scan] on the cards left: this is so when [entries] is the new list, and
    when no card left is selected. *)
Lemma extend_scan r pool f fuel : forall i j h,
  r = Fresh
  \/ Forall (fun c => pool c = true -> f c <> Some true) (rest (store h) i j) ->
  length (rest (store h) i j) + (length (store h) - i) < fuel ->
  extend fuel r pool f i j h
  = (fst (scan pool f (rest (store h) i j) (fresh h)),
     {| store := store h;
        fresh := snd (scan pool f (rest (store h) i j) (fresh h)) |}).
Proof.
  induction fuel as [|fuel IH]; intros i j h Hr Hfuel; [lia|].
  simpl. destruct (store h !! i) as [[k cards]|] eqn:Hi.
  - destruct (cards !! j) as [c|] eqn:Hj.
    + rewrite (rest_next_card _ _ _ _ _ _ Hi Hj) in *. simpl in *.
      destruct (pool c) eqn:Hp; [destruct (f c) as [[]|] eqn:Hf|].
      * destruct Hr as [-> | Hr].
        -- rewrite IH; simpl; [reflexivity|now left|lia].
        -- apply Forall_cons_1 in Hr as [Hc _]. now destruct (Hc Hp).
      * apply IH; [|lia]. destruct Hr as [->|Hr]; [now left|right].
        now apply Forall_cons_1 in Hr as [_ Hr].
      * now destruct h.
      * apply IH; [|lia]. destruct Hr as [->|Hr]; [now left|right].
        now apply Forall_cons_1 in Hr as [_ Hr].
    + rewrite (rest_next_list _ _ _ _ _ Hi Hj) in *.
      apply IH; [exact Hr|]. apply lookup_lt_Some in Hi. lia.
  - rewrite (rest_end _ _ _ Hi). simpl. now destruct h.
Qed.

(** Whatever the outcome, [extend] only appends to the list [entries] is
    bound to, and only cards of the pool that pass the filter; it leaves the
    dictionary as it was when [entries] is the new list. *)
Lemma extend_appends r pool f fuel : forall i j h o h',
  extend fuel r pool f i j h = (o, h') ->
  (exists added,
     deref r h' = deref r h ++ added
     /\ Forall (fun c => pool c = true /\ f c = Some true) added)
  /\ (r = Fresh -> store h' = store h).
Proof.
  induction fuel as [|fuel IH]; intros i j h o h' Hrun; simpl in Hrun.
  - injection Hrun as <- <-. split; [|reflexivity].
    exists []. now rewrite app_nil_r.
  - assert (Hstop : forall o0, (o0, h) = (o, h') ->
      (exists added, deref r h' = deref r h ++ added
         /\ Forall (fun c => pool c = true /\ f c = Some true) added)
      /\ (r = Fresh -> store h' = store h)).
    { intros o0 Heq. injection Heq as <- <-. split; [|reflexivity].
      exists []. now rewrite app_nil_r. }
    destruct (store h !! i) as [[k cards]|]; [|now apply (Hstop (Returns tt))].
    destruct (cards !! j) as [c|]; [|now apply (IH _ _ _ _ _ Hrun)].
    destruct (pool c) eqn:Hp; [|now apply (IH _ _ _ _ _ Hrun)].
    destruct (f c) as [[]|] eqn:Hf;
      [|now apply (IH _ _ _ _ _ Hrun)|now apply (Hstop (Raises TypeError))].
    apply IH in Hrun as [(added & Hd & Hall) Hst].
    split.
    + exists (c :: added). split; [|now constructor].
      rewrite Hd. destruct r as [key|]; simpl.
      * rewrite dict_get_append_same. simpl. now rewrite <- app_assoc.
      * now rewrite <- app_assoc.
    + intros ->. now rewrite (Hst eq_refl).
Qed.

(** *** When [entries] is a list of the dictionary *)

Lemma dict_get_split k : forall (d : cards_map) cs,
  dict_get k d = Some cs ->
  exists d1 d2, d = d1 ++ (k, cs) :: d2 /\ Forall (fun kv => fst kv <> k) d1.
Proof.
  induction d as [|[k' cs'] d IH]; intros cs Hget; simpl in Hget; [discriminate|].
  destruct (String.eqb_spec k' k) as [->|Hne].
  - injection Hget as ->. exists [], d. split; [reflexivity|constructor].
  - destruct (IH _ Hget) as (d1 & d2 & -> & Hd1).
    exists ((k', cs') :: d1), d2. split; [reflexivity|]. now constructor.
Qed.

Lemma dict_append_middle k c cs d2 : forall d1 : cards_map,
  Forall (fun kv => fst kv <> k) d1 ->
  dict_append k c (d1 ++ (k, cs) :: d2) = d1 ++ (k, cs ++ [c]) :: d2.
Proof.
  induction d1 as [|[k' cs'] d1 IH]; intros Hd1; simpl.
  - now rewrite String.eqb_refl.
  - apply Forall_cons_1 in Hd1 as [Hk Hd1]. simpl in Hk.
    apply String.eqb_neq in Hk. rewrite Hk. now rewrite IH.
Qed.

Lemma dict_get_middle k cs d2 : forall d1 : cards_map,
  Forall (fun kv => fst kv <> k) d1 ->
  dict_get k (d1 ++ (k, cs) :: d2) = Some cs.
Proof.
  induction d1 as [|[k' cs'] d1 IH]; intros Hd1; simpl.
  - now rewrite String.eqb_refl.
  - apply Forall_cons_1 in Hd1 as [Hk Hd1]. simpl in Hk.
    apply String.eqb_neq in Hk. rewrite Hk. now apply IH.
Qed.

(** If [entries] is the list stored under [k], and a selected card is still
    to come in that list or in one before it, [extend] never ends: a
    selected card met is appended to the list of [k], where the generator
    will meet it again. *)
Lemma extend_diverges k pool f :
  (forall c, f c <> None) ->
  forall fuel i j h,
    (exists d1 cs d2 i' j' key' cards' c,
       store h = d1 ++ (k, cs) :: d2
       /\ Forall (fun kv => fst kv <> k) d1
       /\ store h !! i' = Some (key', cards')
       /\ cards' !! j' = Some c
       /\ pool c = true /\ f c = Some true
       /\ i' <= length d1 /\ ahead i j i' j') ->
    fst (extend fuel (Stored k) pool f i j h) = OutOfFuel.
Proof.
  intros Htotal. induction fuel as [|fuel IH]; intros i j h Hinv; [reflexivity|].
  destruct Hinv as (d1 & cs & d2 & i' & j' & key' & cards' & c
                    & Hst & Hd1 & Hi' & Hj' & Hp & Hf & Hle & Hahead).
  simpl. destruct (store h !! i) as [[key cards]|] eqn:Hi.
  - destruct (cards !! j) as [c0|] eqn:Hj.
    + assert (Hstay : c0 <> c \/ pool c0 = false \/ f c0 = Some false ->
                fst (extend fuel (Stored k) pool f i (S j) h) = OutOfFuel).
      { intros Hdiff. apply IH.
        exists d1, cs, d2, i', j', key', cards', c.
        repeat (split; [assumption|]).
        destruct Hahead as [Hlt | [-> Hjj]]; [now left|right].
        split; [reflexivity|].
        destruct (decide (j = j')) as [->|Hne]; [|lia].
        rewrite Hi in Hi'. injection Hi' as -> ->.
        rewrite Hj in Hj'. injection Hj' as ->.
        destruct Hdiff as [H|[H|H]]; congruence. }
      destruct (pool c0) eqn:Hp0; [|apply Hstay; auto].
      destruct (f c0) as [[]|] eqn:Hf0;
        [|apply Hstay; auto|now destruct (Htotal c0)].
      apply IH. simpl. rewrite Hst, (dict_append_middle _ _ _ _ _ Hd1).
      exists d1, (cs ++ [c0]), d2, (length d1), (length cs), k, (cs ++ [c0]), c0.
      split; [reflexivity|]. split; [assumption|].
      split; [apply list_lookup_middle; reflexivity|].
      split; [apply list_lookup_middle; reflexivity|].
      split; [assumption|]. split; [assumption|]. split; [lia|].
      assert (i <= length d1) by (destruct Hahead as [?|[-> ?]]; lia).
      destruct (decide (i = length d1)) as [->|Hne]; [right|left; lia].
      split; [reflexivity|].
      rewrite Hst, list_lookup_middle in Hi by reflexivity.
      injection Hi as <- <-. apply lookup_lt_Some in Hj. lia.
    + apply IH. exists d1, cs, d2, i', j', key', cards', c.
      repeat (split; [assumption|]).
      destruct Hahead as [Hlt | [-> Hjj]].
      * destruct (decide (S i = i')) as [<-|Hne]; [right; split; lia|left; lia].
      * rewrite Hi in Hi'. injection Hi' as -> ->.
        apply lookup_lt_Some in Hj'. apply lookup_ge_None in Hj. lia.
  - exfalso. apply lookup_ge_None in Hi. apply lookup_lt_Some in Hi'.
    destruct Hahead as [?|[-> ?]]; lia.
Qed.

Lemma all_cards_position (d : cards_map) c :
  In c (all_cards d) ->
  exists i j key cards, d !! i = Some (key, cards) /\ cards !! j = Some c.
Proof.
  unfold all_cards. intros Hin. apply in_concat in Hin as (cards & Hcards & Hc).
  apply in_map_iff in Hcards as ([key cards'] & <- & Hkv).
  apply list_elem_of_In, list_elem_of_lookup in Hkv as [i Hi].
  apply list_elem_of_In, list_elem_of_lookup in Hc as [j Hj].
  now exists i, j, key, cards'.
Qed.

(** A lookup with [expand_search] of a name that has exact matches never
    returns when one of the exact matches, or a card stored before them, is
    itself selected by the expanded search. *)
Lemma lookup_exact_match_diverges fuel self n doubles unique code stype d1 cs d2 c :
  rejected stype = false ->
  name_criterion (Some n) = Some n ->
  (forall x, matcher n x <> None) ->
  _cards_map self = d1 ++ (make_dbentry n, cs) :: d2 ->
  Forall (fun kv => fst kv <> make_dbentry n) d1 ->
  In c (all_cards d1 ++ cs) ->
  selected doubles n c = true ->
  fst (lookup fuel self (Some n) true doubles unique code stype) = OutOfFuel.
Proof.
  intros Hok Hn Htotal Hmap Hd1 Hin Hsel.
  apply andb_true_iff in Hsel as [Hp Hf]. apply bool_decide_eq_true in Hf.
  unfold lookup. rewrite Hok, Hn, is_Some_Some. cbn [orb negb].
  rewrite Hmap, (dict_get_middle _ _ _ _ Hd1). rewrite andb_false_r.
  match goal with
  | |- context [extend ?fu ?r ?p ?g ?i ?j ?h] =>
      pose proof (extend_diverges (make_dbentry n) p g Htotal fu i j h) as Hdiv;
      destruct (extend fu r p g i j h) as [o h'] eqn:Hrun
  end.
  simpl in Hdiv. rewrite Hdiv; [reflexivity|].
  apply in_app_iff in Hin as [Hin | Hin].
  - apply all_cards_position in Hin as (i' & j' & key' & cards' & Hi' & Hj').
    exists d1, cs, d2, i', j', key', cards', c.
    split; [reflexivity|]. split; [assumption|].
    split; [now apply lookup_app_l_Some|].
    split; [assumption|]. split; [assumption|]. split; [assumption|].
    apply lookup_lt_Some in Hi'. split; [lia|].
    unfold ahead. destruct i'; [right; split; lia|left; lia].
  - apply list_elem_of_In, list_elem_of_lookup in Hin as [j' Hj'].
    exists d1, cs, d2, (length d1), j', (make_dbentry n), cs, c.
    split; [reflexivity|]. split; [assumption|].
    split; [apply list_lookup_middle; reflexivity|].
    split; [assumption|]. split; [assumption|]. split; [assumption|].
    split; [lia|]. unfold ahead.
    destruct (length d1); [right; split; lia|left; lia].
Qed.

Lemma rest_behind k (d1 d2 : cards_map) cs cs' i j :
  length d1 < i ->
  rest (d1 ++ (k, cs') :: d2) i j = rest (d1 ++ (k, cs) :: d2) i j.
Proof.
  intros Hi. unfold rest.
  rewrite !(lookup_app_r d1) by lia.
  rewrite !(drop_app_ge d1) by lia.
  destruct (i - length d1) as [|m] eqn:Hm; [lia|].
  replace (S i - length d1) with (S (S m)) by lia.
  reflexivity.
Qed.

(** If [entries] is the list stored under [k] and no selected card is to
    come in that list or in one before it, [extend] is [scan] on the cards
    left, appending to the list of [k]. *)
Lemma extend_stored k pool f (d1 d2 : cards_map) :
  Forall (fun kv => fst kv <> k) d1 ->
  forall fuel i j h cs,
    store h = d1 ++ (k, cs) :: d2 ->
    (forall i' j' key' cards' c,
       store h !! i' = Some (key', cards') -> cards' !! j' = Some c ->
       i' <= length d1 -> ahead i j i' j' ->
       pool c = true -> f c <> Some true) ->
    length (rest (store h) i j) + (length (store h) - i) < fuel ->
    extend fuel (Stored k) pool f i j h
    = (fst (scan pool f (rest (store h) i j) cs),
       {| store := d1 ++ (k, snd (scan pool f (rest (store h) i j) cs)) :: d2;
          fresh := fresh h |}).
Proof.
  intros Hd1. induction fuel as [|fuel IH]; intros i j h cs Hst Hnone Hfuel; [lia|].
  simpl. destruct (store h !! i) as [[key cards]|] eqn:Hi.
  - destruct (cards !! j) as [c|] eqn:Hj.
    + rewrite (rest_next_card _ _ _ _ _ _ Hi Hj) in *. simpl in Hfuel |- *.
      assert (Hskip : forall i' j' key' cards' c',
                store h !! i' = Some (key', cards') -> cards' !! j' = Some c' ->
                i' <= length d1 -> ahead i (S j) i' j' ->
                pool c' = true -> f c' <> Some true).
      { intros i' j' key' cards' c' H1 H2 H3 H4. apply (Hnone i' j' key' cards' c' H1 H2 H3).
        unfold ahead in *. lia. }
      destruct (pool c) eqn:Hp; [destruct (f c) as [[]|] eqn:Hf|].
      * assert (Hbehind : length d1 < i).
        { destruct (le_lt_dec i (length d1)) as [Hle|]; [|assumption].
          exfalso. apply (Hnone i j key cards c Hi Hj Hle); auto.
          right. split; lia. }
        rewrite (IH i (S j) _ (cs ++ [c])); simpl.
        -- rewrite Hst, (dict_append_middle _ _ _ _ _ Hd1).
           now rewrite !(rest_behind k d1 d2 cs (cs ++ [c])).
        -- rewrite Hst. apply (dict_append_middle _ _ _ _ _ Hd1).
        -- intros i' j' key' cards' c' _ _ Hle Ha _. unfold ahead in Ha. lia.
        -- rewrite Hst, (dict_append_middle _ _ _ _ _ Hd1).
           rewrite (rest_behind k d1 d2 cs (cs ++ [c])) by assumption.
           rewrite Hst in Hfuel. rewrite !length_app in *.
           cbn [length] in *. lia.
      * apply IH; [assumption|assumption|lia].
      * simpl. rewrite <- Hst. now destruct h.
      * apply IH; [assumption|assumption|lia].
    + rewrite (rest_next_list _ _ _ _ _ Hi Hj) in *.
      apply IH; [assumption| |apply lookup_lt_Some in Hi; lia].
      intros i' j' key' cards' c' H1 H2 H3 H4.
      apply (Hnone i' j' key' cards' c' H1 H2 H3).
      unfold ahead in *. lia.
  - rewrite (rest_end _ _ _ Hi). simpl. rewrite <- Hst. now destruct h.
Qed.

(** [scan] with a filter that never raises is a [filter]. *)
Lemma scan_filter pool f cs : forall acc,
  (forall c, f c <> None) ->
  scan pool f cs acc
  = (Returns tt,
     acc ++ List.filter (fun c => pool c && bool_decide (f c = Some true)) cs).
Proof.
  induction cs as [|c cs IH]; intros acc Htotal; simpl.
  - now rewrite app_nil_r.
  - destruct (pool c); simpl; [|now apply IH].
    destruct (f c) as [[]|] eqn:Hf; simpl.
    + rewrite IH by assumption. now rewrite <- app_assoc.
    + now apply IH.
    + now destruct (Htotal c).
Qed.

(** [scan] with a filter that always raises stops at the first card of the
    pool. *)
Lemma scan_raises pool f cs acc :
  (forall c, f c = None) ->
  scan pool f cs acc
  = (if existsb pool cs then Raises TypeError else Returns tt, acc).
Proof.
  intros Hnone. induction cs as [|c cs IH]; simpl; [reflexivity|].
  destruct (pool c); simpl; [now rewrite Hnone|exact IH].
Qed.

(** *** The filter functions *)

Lemma fold_left_andb xs : forall b, fold_left andb xs b = b && forallb id xs.
Proof.
  induction xs as [|x xs IH]; intros b; simpl.
  - now rewrite andb_true_r.
  - rewrite IH. now rewrite andb_assoc.
Qed.

Lemma forallb_id_map {A : Type} (g : A -> bool) l :
  forallb id (map g l) = forallb g l.
Proof. induction l as [|x l IH]; simpl; [reflexivity|now rewrite IH]. Qed.

(** [_isin] raises exactly when the name asked for has no word; otherwise
    it tells whether each of its words, in lower case, is a word of the
    entry in lower case. *)
Lemma _isin_words card_name db_entry :
  _isin card_name db_entry
  = match Py.split (Py.lower card_name) with
    | [] => None
    | ws => Some (forallb (fun w => Py.in_list w (Py.split (Py.lower db_entry))) ws)
    end.
Proof.
  unfold _isin, reduce. destruct (Py.split (Py.lower card_name)) as [|w ws]; simpl.
  - reflexivity.
  - rewrite fold_left_andb. now rewrite forallb_id_map.
Qed.

(** The four shapes of the name, and the test each selects. *)
Lemma matcher_shapes card_name c :
  matcher card_name c
  = match Py.startswith card_name "*", Py.endswith card_name "*" with
    | true, true =>
        let term := Py.lower (Py.drop_last (Py.drop_first card_name)) in
        Some (Py.startswith (Py.lower (name c)) term
              || Py.endswith (Py.lower (name c)) term)
    | true, false =>
        Some (Py.endswith (Py.lower (name c)) (Py.lower (Py.drop_first card_name)))
    | false, true =>
        Some (Py.startswith (Py.lower (name c)) (Py.lower (Py.drop_last card_name)))
    | false, false =>
        match Py.split (Py.lower card_name) with
        | [] => None
        | ws =>
            Some (forallb (fun w => Py.in_list w (Py.split (Py.lower (name c)))) ws)
        end
    end.
Proof.
  unfold matcher. rewrite _isin_words.
  destruct (Py.startswith card_name "*"), (Py.endswith card_name "*"); reflexivity.
Qed.

(** Whether the filter function raises does not depend on the card. *)
Lemma matcher_total card_name :
  Py.startswith card_name "*" = true \/ Py.endswith card_name "*" = true
  \/ Py.split (Py.lower card_name) <> [] ->
  forall c, matcher card_name c <> None.
Proof.
  intros H c. rewrite matcher_shapes.
  destruct (Py.startswith card_name "*"), (Py.endswith card_name "*");
    try discriminate.
  destruct (Py.split (Py.lower card_name)); [|discriminate].
  destruct H as [H|[H|H]]; congruence.
Qed.

Lemma all_space_ascii s : all_space s = true -> Py.is_ascii s = true.
Proof.
  induction s as [|c s IH]; [reflexivity|].
  intros H. apply andb_true_iff in H as [Hc Hs].
  cbn [Py.is_ascii]. now rewrite (space_is_ascii c Hc), (IH Hs).
Qed.

Lemma all_space_lower s : all_space s = true -> Py.lower s = s.
Proof.
  intros H. rewrite (lower_ascii s (all_space_ascii s H)).
  induction s as [|c s IH]; simpl; [reflexivity|].
  apply andb_true_iff in H as [Hc Hs].
  now rewrite (lower_char_space c Hc), IH.
Qed.

Lemma all_space_split s : all_space s = true -> Py.split s = [].
Proof.
  unfold Py.split. induction s as [|c s IH]; [reflexivity|].
  intros H. apply andb_true_iff in H as [Hc Hs].
  cbn [Py.split_from]. unfold Py.space_width. rewrite Hc.
  cbn [Py.flush app]. now apply IH.
Qed.

Lemma all_space_no_star s : all_space s = true -> Py.replace "*" "" s = s.
Proof.
  induction s as [|c s IH]; simpl; [reflexivity|].
  intros H. apply andb_true_iff in H as [Hc Hs].
  rewrite (star_not_space c Hc). now rewrite IH.
Qed.

Lemma all_space_startswith s : all_space s = true -> Py.startswith s "*" = false.
Proof.
  destruct s as [|c s]; [reflexivity|].
  intros H. apply andb_true_iff in H as [Hc Hs].
  change (Py.startswith (String c s) "*")
    with (Ascii.eqb "*" c && Py.startswith s "").
  rewrite Ascii.eqb_sym. now rewrite (star_not_space c Hc).
Qed.

Lemma all_space_endswith s : all_space s = true -> Py.endswith s "*" = false.
Proof.
  induction s as [|c s IH]; [reflexivity|].
  intros H. apply andb_true_iff in H as [Hc Hs].
  change (Py.endswith (String c s) "*")
    with (String.eqb (String c s) "*" || Py.endswith s "*").
  rewrite (IH Hs), orb_false_r.
  change (String.eqb (String c s) "*") with (Ascii.eqb c "*" && String.eqb s "").
  now rewrite (star_not_space c Hc).
Qed.

Lemma all_space_matcher n c : all_space n = true -> matcher n c = None.
Proof.
  intros H. rewrite matcher_shapes.
  rewrite (all_space_startswith n H), (all_space_endswith n H).
  now rewrite (all_space_lower n H), (all_space_split n H).
Qed.

(** *** What a lookup with [expand_search] gives *)

Lemma with_store_same self acc :
  with_store self {| store := _cards_map self; fresh := acc |} = self.
Proof. now destruct self. Qed.

(** No exact match: the selected cards of the index, in its order; the
    index is left as it was. *)
Lemma lookup_expand_fresh fuel self n doubles unique code stype :
  rejected stype = false ->
  name_criterion (Some n) = Some n ->
  (forall c, matcher n c <> None) ->
  dict_get (make_dbentry n) (_cards_map self) = None ->
  requests (_cards_map self) <= fuel ->
  lookup fuel self (Some n) true doubles unique code stype
  = (Returns (Cards (select self unique code stype
                       (List.filter (selected doubles n)
                                    (all_cards (_cards_map self))))), self).
Proof.
  intros Hok Hn Htotal Hget Hfuel.
  unfold lookup. rewrite Hok, Hn, is_Some_Some. cbn [orb negb].
  rewrite Hget. rewrite andb_false_r.
  rewrite extend_scan; [|now left|cbn [store]; rewrite rest_start; unfold requests in Hfuel; lia].
  cbn [store fresh]. rewrite rest_start, scan_filter by assumption.
  cbn [fst snd deref fresh app]. now rewrite with_store_same.
Qed.

Lemma before_or_at_key k (d1 d2 : cards_map) cs i' j' key' cards' c :
  (d1 ++ (k, cs) :: d2) !! i' = Some (key', cards') ->
  cards' !! j' = Some c -> i' <= length d1 ->
  In c (all_cards d1 ++ cs).
Proof.
  intros Hi' Hj' Hle. apply in_app_iff.
  destruct (decide (i' = length d1)) as [->|Hne].
  - rewrite list_lookup_middle in Hi' by reflexivity. injection Hi' as <- <-.
    right. apply list_elem_of_In, list_elem_of_lookup. now exists j'.
  - left. rewrite lookup_app_l in Hi' by lia.
    unfold all_cards. apply in_concat. exists cards'. split.
    + apply in_map_iff. exists (key', cards'). split; [reflexivity|].
      apply list_elem_of_In, list_elem_of_lookup. now exists i'.
    + apply list_elem_of_In, list_elem_of_lookup. now exists j'.
Qed.

Lemma filter_none {A : Type} (p : A -> bool) l :
  Forall (fun x => p x = false) l -> List.filter p l = [].
Proof.
  induction 1 as [|x l Hx _ IH]; simpl; [reflexivity|]. now rewrite Hx.
Qed.

(** Exact matches none of which, nor any card stored before them, is
    selected: the exact matches, then the selected cards of the index; these
    are appended to the list of the exact matches in the index. *)
Lemma lookup_expand_stored fuel self n doubles unique code stype d1 cs d2 :
  rejected stype = false ->
  name_criterion (Some n) = Some n ->
  (forall c, matcher n c <> None) ->
  _cards_map self = d1 ++ (make_dbentry n, cs) :: d2 ->
  Forall (fun kv => fst kv <> make_dbentry n) d1 ->
  Forall (fun c => selected doubles n c = false) (all_cards d1 ++ cs) ->
  requests (_cards_map self) <= fuel ->
  let found := List.filter (selected doubles n) (all_cards (_cards_map self)) in
  lookup fuel self (Some n) true doubles unique code stype
  = (Returns (Cards (select self unique code stype (cs ++ found))),
     {| _cards_map := d1 ++ (make_dbentry n, cs ++ found) :: d2;
        _expansion_codename_map := _expansion_codename_map self |}).
Proof.
  intros Hok Hn Htotal Hmap Hd1 Hnone Hfuel found.
  assert (Hall : all_cards (_cards_map self) = (all_cards d1 ++ cs) ++ all_cards d2).
  { rewrite Hmap. unfold all_cards. rewrite map_app, concat_app. simpl.
    now rewrite <- app_assoc. }
  assert (Hfound : found = List.filter (selected doubles n) (all_cards d2)).
  { unfold found. rewrite Hall, List.filter_app.
    now rewrite (filter_none _ _ Hnone). }
  unfold lookup. rewrite Hok, Hn, is_Some_Some. cbn [orb negb].
  assert (Hget : dict_get (make_dbentry n) (_cards_map self) = Some cs).
  { rewrite Hmap. apply (dict_get_middle _ _ _ _ Hd1). }
  rewrite Hget, andb_false_r.
  rewrite (extend_stored (make_dbentry n) _ _ d1 d2 Hd1 fuel 0 0 _ cs).
  - cbn [store fresh]. rewrite rest_start, scan_filter by assumption.
    cbn [fst snd]. unfold deref, with_store. cbn [store].
    rewrite (dict_get_middle _ _ _ _ Hd1). cbn [default].
    fold (selected doubles n). rewrite Hall, List.filter_app.
    rewrite (filter_none _ _ Hnone). cbn [app]. now rewrite <- Hfound.
  - exact Hmap.
  - cbn [store]. rewrite Hmap. intros i' j' key' cards' c Hi' Hj' Hle _ Hp Hf.
    pose proof (before_or_at_key _ _ _ _ _ _ _ _ _ Hi' Hj' Hle) as Hin.
    rewrite List.Forall_forall in Hnone. specialize (Hnone c Hin).
    unfold selected in Hnone. rewrite Hp, Hf in Hnone. discriminate Hnone.
  - cbn [store]. rewrite rest_start. unfold requests in Hfuel. lia.
Qed.

(** A lookup changes nothing in the object when it does not expand the
    search, and when the name has no exact match. *)
Lemma lookup_frame fuel self card_name expand doubles unique code stype :
  expand = false
  \/ (forall n, card_name = Some n ->
        dict_get (make_dbentry n) (_cards_map self) = None) ->
  snd (lookup fuel self card_name expand doubles unique code stype) = self.
Proof.
  intros [-> | Hnew]; [now rewrite lookup_plain|].
  unfold lookup. destruct (rejected stype); [reflexivity|].
  destruct (negb _); [reflexivity|].
  destruct (name_criterion card_name) as [n|] eqn:Hn; [|reflexivity].
  assert (card_name = Some n) as Hcn.
  { destruct card_name as [m|]; [|discriminate].
    now rewrite (name_criterion_Some _ _ Hn). }
  rewrite (Hnew n Hcn). destruct (is_nil _ && negb expand); [reflexivity|].
  destruct expand; [|reflexivity].
  destruct (extend _ _ _ _ _ _ _) as [o h'] eqn:Hrun.
  apply extend_appends in Hrun as [_ Hst]. specialize (Hst eq_refl).
  cbn [store] in Hst.
  assert (with_store self h' = self) as Hsame.
  { unfold with_store. rewrite Hst. now destruct self. }
  destruct o as [[]| |]; simpl; exact Hsame.
Qed.

Lemma finish_In unique stype entries c :
  In c (finish unique stype entries) -> In c entries.
Proof.
  unfold finish. rewrite _result_set_id. intros Hc.
  assert (Hu : In c match stype with
                    | Some t => List.filter (fun c => String.eqb (set_type c) t) entries
                    | None => entries
                    end).
  { destruct unique; [|exact Hc].
    rewrite unique_values_first in Hc.
    apply list_elem_of_In. apply list_elem_of_In in Hc.
    exact (sublist_subseteq _ _ (first_seen_sublist _ _) c Hc). }
  destruct stype; [|exact Hu]. now apply List.filter_In in Hu as [Hu _].
Qed.

Lemma select_In self unique code stype entries c :
  In c (select self unique code stype entries) -> In c entries.
Proof.
  destruct code as [sc|].
  - rewrite select_by_code. intros Hc. apply finish_In in Hc.
    now apply List.filter_In in Hc as [Hc _].
  - apply finish_In.
Qed.

(** C1, on a catalogue with the cards Ice and Fire // Ice.  The lookup of
    "ice" with [expand_search] and [doubles_only] returns the two cards, and
    afterwards the list of the index under the key "ice", which held the
    card Ice alone, holds Fire // Ice as well: the lookup has changed the
    index. *)
Theorem lookup_appends_to_index :
  let call := lookup 100 small_db (Some "ice") true true false None None in
  fst call = Returns (Cards [card_of_entry ice; card_of_entry fire_ice])
  /\ dict_get "ice" (_cards_map small_db) = Some [card_of_entry ice]
  /\ dict_get "ice" (_cards_map (snd call))
     = Some [card_of_entry ice; card_of_entry fire_ice]
  /\ snd call <> small_db.
Proof.
  split; [vm_compute; reflexivity|].
  split; [vm_compute; reflexivity|].
  split; [vm_compute; reflexivity|].
  intros Heq. apply (f_equal (fun s => dict_get "ice" (_cards_map s))) in Heq.
  vm_compute in Heq. discriminate Heq.
Qed.

(** C4, on a catalogue with the one card Ice.  The lookup of "Ice" with
    [expand_search] has an exact match, which the whole-word test selects
    too; the result should be that card twice.  The code never returns:
    whatever the fuel, the search is still appending the card to the list it
    is reading. *)
Theorem expanded_lookup_of_exact_name_never_returns :
  forall fuel,
    fst (lookup fuel (init [ice]) (Some "Ice") true false false None None)
    = OutOfFuel.
Proof.
  intros fuel.
  apply (lookup_exact_match_diverges fuel (init [ice]) "Ice" false false None None
           [] [card_of_entry ice] [] (card_of_entry ice)).
  - reflexivity.
  - reflexivity.
  - apply matcher_total. right. right. vm_compute. discriminate.
  - reflexivity.
  - constructor.
  - now left.
  - vm_compute. reflexivity.
Qed.

(** C9, as stated, fails: with [expand_search] and [doubles_only] the
    lookup of "ice" returns the card Ice, whose name has no "//". *)
Lemma doubles_only_keeps_exact_match :
  fst (lookup 100 small_db (Some "ice") true true false None None)
  = Returns (Cards [card_of_entry ice; card_of_entry fire_ice])
  /\ Py.contains (name (card_of_entry ice)) "//" = false.
Proof. split; vm_compute; reflexivity. Qed.

(** C10.  A name that is not empty and is made of white space only counts
    as a name; with [expand_search], on an index that has a card, the lookup
    of such a name raises [TypeError]: it returns neither cards nor the
    error object. *)
Theorem whitespace_name_raises_TypeError fuel self n unique code stype :
  n <> "" -> all_space n = true ->
  all_cards (_cards_map self) <> [] ->
  rejected stype = false ->
  requests (_cards_map self) <= fuel ->
  name_criterion (Some n) = Some n
  /\ lookup fuel self (Some n) true false unique code stype
     = (Raises TypeError, self).
Proof.
  intros Hne Hspace Hcards Hok Hfuel.
  assert (Hn : name_criterion (Some n) = Some n).
  { apply name_criterion_given. now rewrite (all_space_no_star n Hspace). }
  split; [exact Hn|].
  unfold lookup. rewrite Hok, Hn, is_Some_Some. cbn [orb negb].
  rewrite andb_false_r.
  rewrite extend_scan.
  - cbn [store fresh]. rewrite rest_start.
    rewrite scan_raises by (intros c; now apply all_space_matcher).
    destruct (all_cards (_cards_map self)) as [|c cs]; [congruence|].
    cbn [existsb in_pool orb fst snd]. now rewrite with_store_same.
  - right. apply List.Forall_forall. intros c _ _.
    now rewrite (all_space_matcher n c Hspace).
  - cbn [store]. rewrite rest_start. unfold requests in Hfuel. lia.
Qed.

(** C10, witness: [lookup(" ", expand_search=True)]. *)
Lemma whitespace_name_raises_TypeError_witness :
  name_criterion (Some " ") = Some " "
  /\ lookup 100 small_db (Some " ") true false false None None
     = (Raises TypeError, small_db).
Proof.
  apply (whitespace_name_raises_TypeError 100 small_db " " false None None).
  - discriminate.
  - reflexivity.
  - vm_compute. discriminate.
  - reflexivity.
  - vm_compute. lia.
Defined.

(** * Further properties of the index *)

(** ** What the build files under each key *)

Lemma load_as_filing db : forall d,
  fold_left load_entry db d
  = fold_left (fun d c => dict_append (key_of c) c d) (kept_cards db) d.
Proof.
  unfold kept_cards. induction db as [|e db IH]; intros d; simpl; [reflexivity|].
  unfold load_entry at 2. destruct (skipped e); simpl; apply IH.
Qed.

Lemma filing_get cs : forall d k,
  dict_get k (fold_left (fun d c => dict_append (key_of c) c d) cs d)
  = match dict_get k d, List.filter (fun c => String.eqb (key_of c) k) cs with
    | None, [] => None
    | o, l => Some (default [] o ++ l)
    end.
Proof.
  induction cs as [|c cs IH]; intros d k; simpl.
  - destruct (dict_get k d); simpl; [now rewrite app_nil_r|reflexivity].
  - rewrite IH. destruct (String.eqb_spec (key_of c) k) as [<-|Hne].
    + rewrite dict_get_append_same. simpl. rewrite <- app_assoc. simpl.
      now destruct (dict_get (key_of c) d).
    + now rewrite (dict_get_append_other _ _ _ _ Hne).
Qed.

Lemma build_get db k :
  dict_get k (_load_cards_from_db db)
  = match List.filter (fun c => String.eqb (key_of c) k) (kept_cards db) with
    | [] => None
    | l => Some l
    end.
Proof.
  unfold _load_cards_from_db. rewrite load_as_filing, filing_get. simpl.
  now destruct (List.filter _ (kept_cards db)).
Qed.

Lemma keys_append k c (d : cards_map) x :
  In x (map fst (dict_append k c d)) <-> x = k \/ In x (map fst d).
Proof.
  induction d as [|[k' cs] d IH]; simpl.
  - intuition congruence.
  - destruct (String.eqb_spec k' k) as [->|Hne]; simpl.
    + intuition congruence.
    + rewrite IH. tauto.
Qed.

Lemma keys_append_NoDup k c (d : cards_map) :
  NoDup (map fst d) -> NoDup (map fst (dict_append k c d)).
Proof.
  induction d as [|[k' cs] d IH]; simpl; intros Hnd.
  - apply NoDup_singleton.
  - apply NoDup_cons in Hnd as [Hnotin Hnd].
    destruct (String.eqb_spec k' k) as [->|Hne]; simpl.
    + apply NoDup_cons. split; assumption.
    + apply NoDup_cons. split; [|now apply IH].
      rewrite list_elem_of_In, keys_append. rewrite list_elem_of_In in Hnotin.
      intros [Heq|Hin]; [congruence|contradiction].
Qed.

Lemma well_filed_append c d : well_filed d -> well_filed (dict_append (key_of c) c d).
Proof.
  intros [Hkeys Hlists]. split; [now apply keys_append_NoDup|].
  clear Hkeys. induction d as [|[k' cs] d IH]; simpl.
  - repeat constructor. discriminate.
  - apply Forall_cons_1 in Hlists as [[Hne Hcs] Hlists]. simpl in Hne, Hcs.
    destruct (String.eqb_spec k' (key_of c)) as [->|Hk].
    + constructor; [|assumption]. simpl. split.
      * now destruct cs.
      * apply Forall_app. split; [assumption|]. now repeat constructor.
    + constructor; [now split|]. now apply IH.
Qed.

Lemma well_filed_filing cs : forall d,
  well_filed d ->
  well_filed (fold_left (fun d c => dict_append (key_of c) c d) cs d).
Proof.
  induction cs as [|c cs IH]; intros d Hd; simpl; [exact Hd|].
  now apply IH, well_filed_append.
Qed.

Lemma len_all_cards (d : cards_map) :
  fold_right Nat.add 0 (map (fun kv => length (snd kv)) d) = length (all_cards d).
Proof.
  unfold all_cards. induction d as [|[k cs] d IH]; simpl; [reflexivity|].
  rewrite length_app. now rewrite IH.
Qed.

Lemma all_cards_append_perm k c (d : cards_map) :
  Permutation (all_cards (dict_append k c d)) (all_cards d ++ [c]).
Proof.
  unfold all_cards. induction d as [|[k' cs] d IH]; simpl; [reflexivity|].
  destruct (String.eqb k' k); simpl.
  - rewrite <- !app_assoc. apply Permutation_app_head, Permutation_app_comm.
  - rewrite IH. now rewrite <- app_assoc.
Qed.

Lemma all_cards_filing_perm cs : forall d,
  Permutation (all_cards (fold_left (fun d c => dict_append (key_of c) c d) cs d))
              (all_cards d ++ cs).
Proof.
  induction cs as [|c cs IH]; intros d; simpl.
  - now rewrite app_nil_r.
  - rewrite IH, all_cards_append_perm. now rewrite <- app_assoc.
Qed.

(** X1.  After the build, the list filed under a key holds the cards of the
    catalogue entries that are not skipped and whose name normalises to that
    key, in the order of the catalogue; a key with no such card is absent. *)
Theorem index_groups_cards_in_catalogue_order db k :
  dict_get k (_cards_map (init db))
  = match List.filter (fun c => String.eqb (make_dbentry (name c)) k)
                      (kept_cards db) with
    | [] => None
    | l => Some l
    end.
Proof. exact (build_get db k). Qed.

(** X2.  The dictionary the build makes has distinct keys, no empty list,
    every card in the list of the key of its own name; and every card in
    it is in English. *)
Theorem build_files_cards_well db :
  well_filed (_cards_map (init db))
  /\ Forall (fun c => lang c = "en") (all_cards (_cards_map (init db))).
Proof.
  split.
  - unfold init, _load_cards_from_db. cbn [_cards_map].
    rewrite load_as_filing. apply well_filed_filing.
    split; constructor.
  - apply List.Forall_forall. intros c Hc.
    unfold init, _load_cards_from_db in Hc. cbn [_cards_map] in Hc.
    apply load_all_origin in Hc as [[] | (e & _ & Hk & ->)].
    now apply skipped_false_inv in Hk as [Hl _].
Qed.

(** X3.  The cards the index iterates over are, up to their order, the
    cards of the entries that are not skipped, each as many times as the
    catalogue has it; so [len] of the index is the number of those
    entries. *)
Theorem index_holds_each_kept_card_once db :
  Permutation (__iter__ (init db)) (kept_cards db)
  /\ __len__ (init db) = length (kept_cards db).
Proof.
  assert (Hperm : Permutation (__iter__ (init db)) (kept_cards db)).
  { unfold __iter__, init, _load_cards_from_db. cbn [_cards_map].
    rewrite load_as_filing. now rewrite all_cards_filing_perm. }
  split; [exact Hperm|].
  unfold __len__. rewrite len_all_cards.
  exact (Permutation_length Hperm).
Qed.

(** ** Access by name *)

Lemma getitem_init db n :
  __getitem__ (init db) n
  = (Returns
       match Py.replace "*" "" n with
       | EmptyString => []
       | String _ _ =>
           List.filter (fun c => String.eqb (make_dbentry (name c)) (make_dbentry n))
                       (kept_cards db)
       end, init db).
Proof.
  unfold __getitem__, lookup_name. rewrite lookup_plain. simpl rejected. cbv iota.
  destruct (Py.replace "*" "" n) as [|a r] eqn:Hn.
  - rewrite (name_criterion_None (Some n)); [reflexivity|].
    right. now exists n.
  - rewrite (name_criterion_given n) by (rewrite Hn; discriminate).
    rewrite select_all. cbn [tuple_of].
    change (_cards_map (init db)) with (_load_cards_from_db db).
    rewrite build_get. unfold key_of.
    now destruct (List.filter _ (kept_cards db)).
Qed.

(** X4.  [index[name]] never fails and leaves the index as it was; it gives
    the cards of the catalogue entries that are not skipped and whose name
    has the same normal form as [name], in catalogue order, and nothing when
    the name is empty once its stars are removed. *)
Theorem getitem_gives_cards_of_the_same_key db n :
  __getitem__ (init db) n
  = (Returns
       match Py.replace "*" "" n with
       | EmptyString => []
       | String _ _ =>
           List.filter (fun c => String.eqb (make_dbentry (name c)) (make_dbentry n))
                       (kept_cards db)
       end, init db).
Proof. exact (getitem_init db n). Qed.

(** X5.  [name in index] never fails; it is true exactly when something is
    left of the name without its stars and the catalogue has an entry, not
    skipped, whose name has the same normal form. *)
Theorem contains_iff_some_entry_has_the_key db n :
  exists b,
    __contains__ (init db) n = (Returns b, init db)
    /\ (b = true <->
        Py.replace "*" "" n <> ""
        /\ exists e, In e db /\ skipped e = false
                     /\ make_dbentry (e_name e) = make_dbentry n).
Proof.
  unfold __contains__. fold (__getitem__ (init db) n). rewrite getitem_init.
  eexists. split; [reflexivity|].
  destruct (Py.replace "*" "" n) as [|a r].
  - simpl. split; [discriminate|]. intros [H _]. now destruct H.
  - rewrite Nat.ltb_lt. split.
    + intros Hlen. split; [discriminate|].
      destruct (List.filter _ (kept_cards db)) as [|c l] eqn:Hf; [simpl in Hlen; lia|].
      assert (Hc : In c (c :: l)) by now left.
      rewrite <- Hf in Hc. apply List.filter_In in Hc as [Hc Hkey].
      unfold kept_cards in Hc. apply in_map_iff in Hc as (e & <- & He).
      apply List.filter_In in He as [He Hk]. apply negb_true_iff in Hk.
      apply String.eqb_eq in Hkey. now exists e.
    + intros (_ & e & He & Hk & Hkey).
      assert (Hc : In (card_of_entry e)
                      (List.filter (fun c => String.eqb (make_dbentry (name c))
                                                        (make_dbentry n))
                                   (kept_cards db))).
      { apply List.filter_In. split.
        - unfold kept_cards. apply in_map. apply List.filter_In.
          split; [assumption|]. now rewrite Hk.
        - apply String.eqb_eq. exact Hkey. }
      destruct (List.filter _ (kept_cards db)); [destruct Hc|simpl; lia].
Qed.

(** ** The normal form of a name *)

Lemma hyphen_lower_byte b c :
  Py.lower_byte b (hyphen_for_space (Py.lower_byte b c))
  = hyphen_for_space (Py.lower_byte b c).
Proof.
  destruct b; destruct c as [[] [] [] [] [] [] [] []]; vm_compute; reflexivity.
Qed.

Lemma hyphen_lead b c :
  Py.is_byte 195 (hyphen_for_space (Py.lower_byte b c)) = Py.is_byte 195 c.
Proof.
  destruct b; destruct c as [[] [] [] [] [] [] [] []]; vm_compute; reflexivity.
Qed.

Lemma hyphen_hyphen c :
  hyphen_for_space (hyphen_for_space c) = hyphen_for_space c.
Proof. destruct c as [[] [] [] [] [] [] [] []]; vm_compute; reflexivity. Qed.

Lemma hyphen_not_space c : Ascii.eqb " " (hyphen_for_space c) = false.
Proof. destruct c as [[] [] [] [] [] [] [] []]; vm_compute; reflexivity. Qed.

Lemma replace_space s : Py.replace " " "-" s = Py.map_chars hyphen_for_space s.
Proof.
  induction s as [|c s IH]; simpl; [reflexivity|].
  unfold hyphen_for_space at 1. rewrite IH.
  now destruct (Ascii.eqb c " ").
Qed.

Lemma lower_of_normal s : forall b,
  Py.lower_from b (Py.map_chars hyphen_for_space (Py.lower_from b s))
  = Py.map_chars hyphen_for_space (Py.lower_from b s).
Proof.
  induction s as [|c s IH]; intros b; [reflexivity|].
  cbn [Py.lower_from Py.map_chars].
  now rewrite hyphen_lower_byte, hyphen_lead, IH.
Qed.

Lemma map_chars_len f s : Py.len (Py.map_chars f s) = Py.len s.
Proof.
  unfold Py.len. induction s as [|c s IH]; simpl; [reflexivity|now rewrite IH].
Qed.

Lemma lower_from_len s : forall b, Py.len (Py.lower_from b s) = Py.len s.
Proof.
  unfold Py.len. induction s as [|c s IH]; intros b; simpl;
    [reflexivity|now rewrite IH].
Qed.

Lemma hyphens_no_space s :
  Py.contains (Py.map_chars hyphen_for_space s) " " = false.
Proof.
  induction s as [|c s IH]; [reflexivity|].
  change (Py.contains (Py.map_chars hyphen_for_space (String c s)) " ")
    with (Ascii.eqb " " (hyphen_for_space c)
          && Py.startswith (Py.map_chars hyphen_for_space s) ""
          || Py.contains (Py.map_chars hyphen_for_space s) " ").
  now rewrite hyphen_not_space, IH.
Qed.

(** X6.  The key of a name is a normal form: normalising it again changes
    nothing, it has no space, and it is its own lower case.  For an ASCII
    name, the key is as long as the name, and the name in upper case has
    the same key. *)
Theorem make_dbentry_normal_form n :
  make_dbentry (make_dbentry n) = make_dbentry n
  /\ Py.contains (make_dbentry n) " " = false
  /\ Py.lower (make_dbentry n) = make_dbentry n
  /\ (Py.is_ascii n = true ->
      Py.len (make_dbentry n) = Py.len n
      /\ make_dbentry (Py.upper n) = make_dbentry n).
Proof.
  unfold make_dbentry at 1 2 3 4 5 6. rewrite !replace_space.
  split; [|split; [|split]].
  - unfold Py.lower. rewrite lower_of_normal, map_chars_compose.
    apply map_chars_ext, hyphen_hyphen.
  - apply hyphens_no_space.
  - apply lower_of_normal.
  - intros Hascii. split; [|now apply make_dbentry_upper].
    unfold make_dbentry. rewrite replace_space, map_chars_len.
    apply lower_from_len.
Qed.

(** X6, witness: the name of the test of the repository. *)
Lemma make_dbentry_normal_form_witness :
  Py.len (make_dbentry "HAMMEr of BOGardAn") = Py.len "HAMMEr of BOGardAn"
  /\ make_dbentry (Py.upper "HAMMEr of BOGardAn") = make_dbentry "HAMMEr of BOGardAn".
Proof.
  destruct (make_dbentry_normal_form "HAMMEr of BOGardAn") as (_ & _ & _ & H).
  apply H. reflexivity.
Defined.

(** ** The table of set codes *)

Lemma codename_fold cards : forall (m : gmap string string) code nm,
  fold_left (fun acc c => <[set_code c := set_name c]> acc) cards m !! code = Some nm ->
  m !! code = Some nm
  \/ exists c, In c cards /\ set_code c = code /\ set_name c = nm.
Proof.
  induction cards as [|c cards IH]; intros m code nm Hget; simpl in Hget; [now left|].
  apply IH in Hget as [Hget | (c' & Hin & Hc & Hn)].
  - destruct (decide (set_code c = code)) as [Heq|Hne].
    + rewrite Heq, lookup_insert_eq in Hget. injection Hget as Hnm.
      right. exists c. split; [now left|]. now split.
    + rewrite lookup_insert_ne in Hget by assumption. now left.
  - right. exists c'. split; [now right|]. now split.
Qed.

Lemma codename_fold_dom cards : forall (m : gmap string string) code,
  is_Some (m !! code) \/ (exists c, In c cards /\ set_code c = code) ->
  is_Some (fold_left (fun acc c => <[set_code c := set_name c]> acc) cards m !! code).
Proof.
  induction cards as [|c cards IH]; intros m code H; simpl.
  - destruct H as [H | (c & [] & _)]. exact H.
  - apply IH. destruct (decide (set_code c = code)) as [Heq|Hne].
    + left. rewrite Heq, lookup_insert_eq. now eexists.
    + destruct H as [H | (c' & [->|Hin] & Hc)].
      * left. now rewrite lookup_insert_ne.
      * contradiction.
      * right. now exists c'.
Qed.

(** X7.  The table of set codes built from the index has a code as key
    exactly when a card of the index has that set code, and the name it
    gives for a code is the set name of a card with that code. *)
Theorem codename_map_covers_the_set_codes d code :
  (is_Some (_load_codename_map d !! code)
   <-> exists c, In c (all_cards d) /\ set_code c = code)
  /\ forall nm, _load_codename_map d !! code = Some nm ->
       exists c, In c (all_cards d) /\ set_code c = code /\ set_name c = nm.
Proof.
  assert (Hval : forall nm, _load_codename_map d !! code = Some nm ->
            exists c, In c (all_cards d) /\ set_code c = code /\ set_name c = nm).
  { intros nm Hget. apply codename_fold in Hget as [Hget|Hc]; [|exact Hc].
    rewrite lookup_empty in Hget. discriminate Hget. }
  split; [split|exact Hval].
  - intros [nm Hget]. destruct (Hval nm Hget) as (c & Hin & Hc & _). now exists c.
  - intros Hc. apply codename_fold_dom. now right.
Qed.

Lemma select_no_code self unique stype entries :
  select self unique None stype entries = finish unique stype entries.
Proof. reflexivity. Qed.

(** X8.  [add_expansion_code] leaves the cards alone and sets the name of
    the one code: the other codes keep the name the table gave them, the
    lookup by that set code now tests equality, and the table, no longer
    empty, is not loaded again. *)
Theorem add_expansion_code_sets_one_code self code nm :
  let self' := add_expansion_code self (code, nm) in
  _cards_map self' = _cards_map self
  /\ _expansion_codename_map self' !! code = Some nm
  /\ (forall other, other <> code ->
        _expansion_codename_map self' !! other = expansion_codename_map self !! other)
  /\ (forall c, filter_func self' code c = String.eqb (set_code c) code)
  /\ expansion_codename_map self' = _expansion_codename_map self'.
Proof.
  intros self'. unfold self', add_expansion_code. cbn [_cards_map _expansion_codename_map].
  split; [reflexivity|]. split; [apply lookup_insert_eq|].
  split; [intros other Hne; now apply lookup_insert_ne|]. split.
  - intros c. unfold filter_func. cbn [_expansion_codename_map].
    rewrite lookup_insert_eq. reflexivity.
  - unfold expansion_codename_map at 1. cbn [_expansion_codename_map].
    rewrite bool_decide_eq_false_2; [reflexivity|]. apply insert_non_empty.
Qed.

(** X9.  Adding a set code changes nothing for the lookups that give no set
    code: they return the same, and do to the cards of the index what they
    did; the table stays as [add_expansion_code] left it. *)
Theorem add_expansion_code_keeps_other_lookups fuel self codename card_name
    expand doubles unique stype :
  let before := lookup fuel self card_name expand doubles unique None stype in
  let after := lookup fuel (add_expansion_code self codename) card_name
                 expand doubles unique None stype in
  fst after = fst before
  /\ _cards_map (snd after) = _cards_map (snd before)
  /\ _expansion_codename_map (snd after)
     = _expansion_codename_map (add_expansion_code self codename).
Proof.
  destruct codename as [code nm]. unfold lookup. rewrite !select_no_code.
  cbn [add_expansion_code _cards_map].
  destruct (rejected stype); [now repeat split|].
  destruct (negb _); [now repeat split|].
  destruct (name_criterion card_name) as [n|]; [|now repeat split].
  destruct (is_nil _ && negb expand); [now repeat split|].
  destruct expand; [|now repeat split].
  destruct (extend _ _ _ _ _ _ _) as [[[]| |] h']; now repeat split.
Qed.

(** ** The passes after the candidates *)

Lemma filter_sublist {A : Type} (p : A -> bool) l : sublist (List.filter p l) l.
Proof.
  induction l as [|x l IH]; simpl; [constructor|].
  destruct (p x); [now apply sublist_skip|now apply sublist_cons].
Qed.

Lemma finish_sublist unique stype entries : sublist (finish unique stype entries) entries.
Proof.
  unfold finish. rewrite _result_set_id.
  transitivity (match stype with
                | Some t => List.filter (fun c => String.eqb (set_type c) t) entries
                | None => entries
                end).
  - destruct unique; [|reflexivity].
    rewrite unique_values_first. apply first_seen_sublist.
  - destruct stype; [apply filter_sublist|reflexivity].
Qed.

Lemma select_sublist self unique code stype entries :
  sublist (select self unique code stype entries) entries.
Proof.
  destruct code as [sc|].
  - rewrite select_by_code. etransitivity; [apply finish_sublist|apply filter_sublist].
  - apply finish_sublist.
Qed.

Lemma dict_get_sublist k (d : cards_map) cs :
  dict_get k d = Some cs -> sublist cs (all_cards d).
Proof.
  unfold all_cards. induction d as [|[k' cs'] d IH]; simpl; [discriminate|].
  destruct (String.eqb k' k).
  - intros Heq. injection Heq as ->. now apply sublist_inserts_r.
  - intros Hget. now apply sublist_inserts_l, IH.
Qed.

(** X10.  A lookup without [expand_search] never fails and leaves the index
    as it was; when the set type is accepted, its cards are cards of the
    index, in the order in which the index lists them. *)
Theorem plain_lookup_lists_cards_of_the_index fuel self card_name doubles unique
    code stype :
  rejected stype = false ->
  exists cs,
    lookup fuel self card_name false doubles unique code stype
      = (Returns (Cards cs), self)
    /\ sublist cs (all_cards (_cards_map self)).
Proof.
  intros Hok. rewrite lookup_plain, Hok.
  destruct (name_criterion card_name) as [n|].
  - eexists. split; [reflexivity|].
    etransitivity; [apply select_sublist|].
    destruct (dict_get (make_dbentry n) (_cards_map self)) as [cs|] eqn:Hget; simpl.
    + now apply (dict_get_sublist (make_dbentry n)).
    + apply sublist_nil_l.
  - destruct code as [sc|]; [|destruct stype as [t|]].
    + eexists. split; [reflexivity|apply select_sublist].
    + eexists. split; [reflexivity|apply select_sublist].
    + exists []. split; [reflexivity|apply sublist_nil_l].
Qed.

(** X10, witness: the lookup of the cards of the set "mir". *)
Lemma plain_lookup_lists_cards_of_the_index_witness :
  exists cs,
    lookup 0 small_db None false false false (Some "mir") None
      = (Returns (Cards cs), small_db)
    /\ sublist cs (all_cards (_cards_map small_db)).
Proof.
  apply (plain_lookup_lists_cards_of_the_index 0 small_db None false false
           (Some "mir") None).
  reflexivity.
Defined.

(** X11.  With an accepted set type, and a name or a set code beside it, a
    lookup gives what it gives without the set type and without [unique],
    reduced to the cards of that set type and then, with [unique], to the
    first card of each name: the set type is tested after the set code and
    before the unique values. *)
Theorem set_type_filter fuel self card_name expand doubles unique code t :
  rejected (Some t) = false ->
  is_Some (name_criterion card_name) \/ is_Some code ->
  lookup fuel self card_name expand doubles unique code (Some t)
  = on_cards
      (fun cs =>
         let typed := List.filter (fun c => String.eqb (set_type c) t) cs in
         if unique then first_by_name typed else typed)
      (lookup fuel self card_name expand doubles false code None).
Proof.
  intros Hok Hcrit.
  assert (Hsel : forall entries,
            select self unique code (Some t) entries
            = (let typed := List.filter (fun c => String.eqb (set_type c) t)
                              (select self false code None entries) in
               if unique then first_by_name typed else typed)).
  { intros entries. destruct code as [sc|].
    - rewrite !select_by_code. unfold finish. rewrite !_result_set_id.
      cbv zeta. destruct unique; [apply unique_values_first|reflexivity].
    - rewrite !select_no_code. unfold finish. rewrite !_result_set_id.
      cbv zeta. destruct unique; [apply unique_values_first|reflexivity]. }
  unfold lookup. rewrite Hok. change (rejected None) with false. cbv iota.
  rewrite is_Some_Some, is_Some_None, !orb_true_r, orb_false_r. cbn [negb].
  assert (Hany : bool_decide (is_Some (name_criterion card_name))
                 || bool_decide (is_Some code) = true).
  { apply orb_true_iff. destruct Hcrit as [H|H]; [left|right];
      now apply bool_decide_eq_true. }
  rewrite Hany. cbn [negb].
  destruct (name_criterion card_name) as [n|].
  - destruct (is_nil _ && negb expand).
    + cbn [on_cards]. now destruct unique.
    + destruct expand.
      * destruct (extend _ _ _ _ _ _ _) as [[[]| |] h']; try reflexivity.
        cbn [on_cards]. now rewrite Hsel.
      * cbn [on_cards]. now rewrite Hsel.
  - cbn [on_cards]. now rewrite Hsel.
Qed.

(** X11, witness: the printings of Hammer of Bogardan of type
    "memorabilia". *)
Lemma set_type_filter_witness :
  lookup 0 small_db (Some "Hammer of Bogardan") false false true None
         (Some "memorabilia")
  = on_cards
      (fun cs =>
         let typed := List.filter (fun c => String.eqb (set_type c) "memorabilia") cs in
         if true then first_by_name typed else typed)
      (lookup 0 small_db (Some "Hammer of Bogardan") false false false None None).
Proof.
  apply (set_type_filter 0 small_db (Some "Hammer of Bogardan") false false true
           None "memorabilia").
  - reflexivity.
  - left. vm_compute. now eexists.
Defined.

(** X12.  A code that is the set code of a card of a built index is a key
    of its table, so the lookup by that code tests equality and never falls
    back to the prefix test: the lookup of the code alone gives the cards
    of the index with exactly that set code, the card of the entry among
    them. *)
Theorem set_code_of_a_card_is_matched_exactly db e :
  In e db -> skipped e = false ->
  let found := List.filter (fun c => String.eqb (set_code c) (e_set e))
                           (__iter__ (init db)) in
  lookup 0 (init db) None false false false (Some (e_set e)) None
    = (Returns (Cards found), init db)
  /\ In (card_of_entry e) found.
Proof.
  intros Hin Hkept found.
  destruct (load_all_indexes db [] e Hin Hkept) as (cs & Hget & Hcs).
  assert (Hcard : In (card_of_entry e) (all_cards (_cards_map (init db)))).
  { exact (dict_get_all_cards _ _ _ _ Hget Hcs). }
  assert (Hkey : is_Some (_expansion_codename_map (init db) !! e_set e)).
  { apply codename_fold_dom. right. now exists (card_of_entry e). }
  split.
  - rewrite lookup_plain. simpl rejected. cbv iota.
    change (name_criterion None) with (@None string). cbv iota.
    rewrite select_by_code. unfold finish. rewrite _result_set_id.
    unfold found, __iter__. do 3 f_equal.
    apply List.filter_ext. intros c. unfold filter_func.
    now rewrite (bool_decide_eq_true_2 _ Hkey).
  - apply List.filter_In. split; [exact Hcard|apply String.eqb_refl].
Qed.

(** X12, witness: the set code "mir" of the small catalogue. *)
Lemma set_code_of_a_card_is_matched_exactly_witness :
  lookup 0 small_db None false false false (Some "mir") None
    = (Returns (Cards (List.filter (fun c => String.eqb (set_code c) "mir")
                                   (__iter__ small_db))), small_db)
  /\ In (card_of_entry hammer_mir)
        (List.filter (fun c => String.eqb (set_code c) "mir") (__iter__ small_db)).
Proof.
  apply (set_code_of_a_card_is_matched_exactly
           [ice; fire_ice; hammer_mir; hammer_wc97; hammer_online] hammer_mir).
  - simpl. tauto.
  - reflexivity.
Defined.

(** ** More on the expanded search *)

Lemma startswith_empty s : Py.startswith s "" = true.
Proof. now destruct s. Qed.

Lemma endswith_app_star x : Py.endswith (x ++ "*")%string "*" = true.
Proof.
  induction x as [|a x IH]; [reflexivity|].
  change (Py.endswith (String a x ++ "*")%string "*")
    with (String.eqb (String a (x ++ "*")%string) "*"
          || Py.endswith (x ++ "*")%string "*").
  rewrite IH. apply orb_true_r.
Qed.

Lemma endswith_after_star t :
  t <> "" -> Py.endswith (String "*" t) "*" = Py.endswith t "*".
Proof.
  intros Hne.
  change (Py.endswith (String "*" t) "*")
    with (String.eqb (String "*" t) "*" || Py.endswith t "*").
  now destruct t.
Qed.

Lemma startswith_before_star t :
  t <> "" -> Py.startswith (t ++ "*")%string "*" = Py.startswith t "*".
Proof.
  destruct t as [|a t]; [congruence|]. intros _.
  change (Py.startswith (String a t ++ "*")%string "*")
    with (Ascii.eqb "*" a && Py.startswith (t ++ "*")%string "").
  change (Py.startswith (String a t) "*")
    with (Ascii.eqb "*" a && Py.startswith t "").
  now rewrite !startswith_empty.
Qed.

Lemma drop_last_app_star x : Py.drop_last (x ++ "*")%string = x.
Proof.
  induction x as [|a x IH]; [reflexivity|].
  change (Py.drop_last (String a x ++ "*")%string)
    with (match (x ++ "*")%string with
          | EmptyString => EmptyString
          | String _ _ => String a (Py.drop_last (x ++ "*")%string)
          end).
  rewrite IH. now destruct x.
Qed.

Lemma replace_keeps_first n :
  n <> "" -> Py.startswith n "*" = false -> Py.replace "*" "" n <> "".
Proof.
  destruct n as [|a n]; [congruence|]. intros _ Hstar.
  change (Py.startswith (String a n) "*")
    with (Ascii.eqb "*" a && Py.startswith n "") in Hstar.
  rewrite startswith_empty, andb_true_r, Ascii.eqb_sym in Hstar.
  simpl. now rewrite Hstar.
Qed.

Lemma forallb_in_self ws : forallb (fun w => Py.in_list w ws) ws = true.
Proof.
  apply forallb_forall. intros w Hw. now apply in_list_In.
Qed.

(** X13.  With [expand_search], when no card is filed under the key of the
    name, and the name is a pattern with a star at an end or has a word,
    the lookup returns the selected cards of the index, in the order in
    which the index lists them, handed to the later passes; the index is
    left as it was. *)
Theorem expanded_search_without_exact_match fuel self n doubles unique code stype :
  rejected stype = false ->
  Py.replace "*" "" n <> "" ->
  Py.startswith n "*" = true \/ Py.endswith n "*" = true
  \/ Py.split (Py.lower n) <> [] ->
  dict_get (make_dbentry n) (_cards_map self) = None ->
  requests (_cards_map self) <= fuel ->
  lookup fuel self (Some n) true doubles unique code stype
  = (Returns (Cards (select self unique code stype
                       (List.filter (selected doubles n)
                                    (all_cards (_cards_map self))))), self).
Proof.
  intros Hok Hname Hshape Hget Hfuel.
  apply lookup_expand_fresh; try assumption.
  - now apply name_criterion_given.
  - now apply matcher_total.
Qed.

(** X13, witness: the search of the prefix "hammer". *)
Lemma expanded_search_without_exact_match_witness :
  lookup 100 small_db (Some "hammer*") true false false None None
  = (Returns (Cards (select small_db false None None
                       (List.filter (selected false "hammer*")
                                    (all_cards (_cards_map small_db))))), small_db).
Proof.
  apply (expanded_search_without_exact_match 100 small_db "hammer*" false false
           None None).
  - reflexivity.
  - discriminate.
  - right. left. reflexivity.
  - reflexivity.
  - vm_compute. lia.
Defined.

(** X14.  For a term that is not empty and has no star at either end: the
    pattern term* selects the cards whose name in lower case starts with
    the term in lower case, *term those whose name ends with it, and *term*
    the cards that either of the two selects. *)
Theorem star_patterns_join_prefix_and_suffix doubles t c :
  t <> "" -> Py.startswith t "*" = false -> Py.endswith t "*" = false ->
  matcher (t ++ "*") c
    = Some (Py.startswith (Py.lower (name c)) (Py.lower t))
  /\ matcher ("*" ++ t) c
     = Some (Py.endswith (Py.lower (name c)) (Py.lower t))
  /\ selected doubles ("*" ++ t ++ "*") c
     = selected doubles (t ++ "*") c || selected doubles ("*" ++ t) c.
Proof.
  intros Hne Hstart Hend.
  assert (Hpre : matcher (t ++ "*") c
                 = Some (Py.startswith (Py.lower (name c)) (Py.lower t))).
  { rewrite matcher_shapes.
    rewrite (startswith_before_star t Hne), Hstart, endswith_app_star.
    now rewrite drop_last_app_star. }
  assert (Hsuf : matcher ("*" ++ t) c
                 = Some (Py.endswith (Py.lower (name c)) (Py.lower t))).
  { rewrite matcher_shapes.
    change ("*" ++ t)%string with (String "*" t).
    rewrite (endswith_after_star t Hne), Hend.
    change (Py.startswith (String "*" t) "*")
      with (Ascii.eqb "*" "*" && Py.startswith t "").
    now rewrite startswith_empty. }
  split; [exact Hpre|]. split; [exact Hsuf|].
  unfold selected. rewrite Hpre, Hsuf.
  rewrite matcher_shapes.
  change ("*" ++ t ++ "*")%string with (String "*" (t ++ "*")%string).
  change (Py.startswith (String "*" (t ++ "*")%string) "*")
    with (Ascii.eqb "*" "*" && Py.startswith (t ++ "*")%string "").
  rewrite startswith_empty.
  change (Py.endswith (String "*" (t ++ "*")%string) "*")
    with (String.eqb (String "*" (t ++ "*")%string) "*"
          || Py.endswith (t ++ "*")%string "*").
  rewrite endswith_app_star, orb_true_r.
  cbn [andb Ascii.eqb]. cbv iota zeta.
  change (Py.drop_first (String "*" (t ++ "*")%string)) with (t ++ "*")%string.
  rewrite drop_last_app_star.
  destruct (in_pool doubles c),
           (Py.startswith (Py.lower (name c)) (Py.lower t)),
           (Py.endswith (Py.lower (name c)) (Py.lower t)); reflexivity.
Qed.

(** X14, witness: the term "ice" and the card Ice. *)
Lemma star_patterns_join_prefix_and_suffix_witness :
  matcher "ice*" (card_of_entry ice) = Some true
  /\ matcher "*ice" (card_of_entry ice) = Some true
  /\ selected false "*ice*" (card_of_entry ice)
     = selected false "ice*" (card_of_entry ice)
       || selected false "*ice" (card_of_entry ice).
Proof.
  apply (star_patterns_join_prefix_and_suffix false "ice" (card_of_entry ice));
    [discriminate|reflexivity|reflexivity].
Defined.

(** X15.  On a built index, the lookup with [expand_search] of the name of
    an entry that is not skipped never returns, when that name has a word
    and no star at either end: the card is an exact match and the
    whole-word test selects it too, so the search appends it to the list it
    is reading, without end, whatever the fuel. *)
Theorem expanded_lookup_of_an_indexed_name_never_returns fuel db e unique code stype :
  In e db -> skipped e = false ->
  Py.startswith (e_name e) "*" = false -> Py.endswith (e_name e) "*" = false ->
  Py.split (Py.lower (e_name e)) <> [] ->
  rejected stype = false ->
  fst (lookup fuel (init db) (Some (e_name e)) true false unique code stype)
  = OutOfFuel.
Proof.
  intros Hin Hkept Hstart Hend Hwords Hok.
  assert (Hne : e_name e <> "").
  { intros Heq. apply Hwords. now rewrite Heq. }
  destruct (load_all_indexes db [] e Hin Hkept) as (cs & Hget & Hcs).
  destruct (dict_get_split _ _ _ Hget) as (d1 & d2 & Hmap & Hd1).
  apply (lookup_exact_match_diverges fuel (init db) (e_name e) false unique code
           stype d1 cs d2 (card_of_entry e)).
  - exact Hok.
  - apply name_criterion_given. now apply replace_keeps_first.
  - apply matcher_total. now right; right.
  - exact Hmap.
  - exact Hd1.
  - apply in_app_iff. now right.
  - unfold selected. cbn [in_pool andb]. apply bool_decide_eq_true.
    rewrite matcher_shapes, Hstart, Hend. cbn [name card_of_entry].
    destruct (Py.split (Py.lower (e_name e))) as [|w ws] eqn:Hsplit; [congruence|].
    now rewrite forallb_in_self.
Qed.

(** X15, witness: the catalogue of the one card Fire // Ice, looked up by
    its name. *)
Lemma expanded_lookup_of_an_indexed_name_never_returns_witness :
  fst (lookup 1000 (init [fire_ice]) (Some "Fire // Ice") true false false None None)
  = OutOfFuel.
Proof.
  apply (expanded_lookup_of_an_indexed_name_never_returns 1000 [fire_ice] fire_ice
           false None None).
  - now left.
  - reflexivity.
  - reflexivity.
  - reflexivity.
  - vm_compute. discriminate.
  - reflexivity.
Defined.

(** X16.  A lookup leaves the object as it was, whatever it gives, when it
    does not expand the search, and when no card is filed under the key of
    the name. *)
Theorem lookup_leaves_the_index_unchanged fuel self card_name expand doubles unique
    code stype :
  expand = false
  \/ (forall n, card_name = Some n ->
        dict_get (make_dbentry n) (_cards_map self) = None) ->
  snd (lookup fuel self card_name expand doubles unique code stype) = self.
Proof. apply lookup_frame. Qed.

(** X16, witness: the search of the word "bogardan", which is no key. *)
Lemma lookup_leaves_the_index_unchanged_witness :
  snd (lookup 100 small_db (Some "bogardan") true false false None None) = small_db.
Proof.
  apply (lookup_leaves_the_index_unchanged 100 small_db (Some "bogardan") true false
           false None None).
  right. intros n Hn. injection Hn as <-. reflexivity.
Defined.

(** X17.  [_isin] raises [TypeError] exactly when the name asked for has no
    word; it answers [True] exactly when the name has a word and each of
    its words, in lower case, is a word of the entry in lower case; and
    putting an ASCII name, or an ASCII entry, in upper case does not change
    its answer. *)
Theorem isin_compares_whole_words card_name db_entry :
  (_isin card_name db_entry = None <-> Py.split (Py.lower card_name) = [])
  /\ (_isin card_name db_entry = Some true <->
      Py.split (Py.lower card_name) <> []
      /\ forall w, In w (Py.split (Py.lower card_name)) ->
                   In w (Py.split (Py.lower db_entry)))
  /\ (Py.is_ascii card_name = true ->
      _isin (Py.upper card_name) db_entry = _isin card_name db_entry)
  /\ (Py.is_ascii db_entry = true ->
      _isin card_name (Py.upper db_entry) = _isin card_name db_entry).
Proof.
  split; [|split; [|split]].
  - rewrite _isin_words. destruct (Py.split (Py.lower card_name)); split;
      congruence.
  - rewrite _isin_words.
    destruct (Py.split (Py.lower card_name)) as [|w ws] eqn:Hs.
    + split; [discriminate|]. intros [H _]. now destruct H.
    + split.
      * intros Hall. split; [discriminate|].
        assert (Hall' : forallb (fun x => Py.in_list x (Py.split (Py.lower db_entry)))
                                (w :: ws) = true) by congruence.
        intros x Hx. rewrite forallb_forall in Hall'.
        now apply in_list_In, Hall'.
      * intros [_ Hall]. f_equal. apply forallb_forall.
        intros x Hx. now apply in_list_In, Hall.
  - intros H. rewrite !_isin_words. now rewrite (lower_upper _ H).
  - intros H. rewrite !_isin_words. now rewrite (lower_upper _ H).
Qed.

(** X17, witness: the word "ice" and the entry "Fire // Ice". *)
Lemma isin_compares_whole_words_witness :
  _isin (Py.upper "ice") "Fire // Ice" = _isin "ice" "Fire // Ice"
  /\ _isin "ice" (Py.upper "Fire // Ice") = _isin "ice" "Fire // Ice".
Proof.
  destruct (isin_compares_whole_words "ice" "Fire // Ice") as (_ & _ & Hn & He).
  split; [apply Hn|apply He]; reflexivity.
Defined.

(** X18.  With [expand_search], a name that is not empty and is made of
    white space raises [TypeError] when the pool has a card, and only then:
    on an index with no card in the pool the lookup returns the exact
    matches, handed to the later passes.  The index is left as it was. *)
Theorem whitespace_name_outcome fuel self n doubles unique code stype :
  n <> "" -> all_space n = true ->
  rejected stype = false ->
  requests (_cards_map self) <= fuel ->
  lookup fuel self (Some n) true doubles unique code stype
  = if existsb (in_pool doubles) (all_cards (_cards_map self))
    then (Raises TypeError, self)
    else (Returns (Cards (select self unique code stype
                            (default [] (dict_get (make_dbentry n)
                                                  (_cards_map self))))), self).
Proof.
  intros Hne Hspace Hok Hfuel.
  assert (Hn : name_criterion (Some n) = Some n).
  { apply name_criterion_given. now rewrite (all_space_no_star n Hspace). }
  unfold lookup. rewrite Hok, Hn, is_Some_Some. cbn [orb negb].
  rewrite andb_false_r.
  rewrite extend_scan.
  - cbn [store fresh]. rewrite rest_start.
    rewrite scan_raises by (intros c; now apply all_space_matcher).
    cbn [fst snd].
    destruct (existsb (in_pool doubles) (all_cards (_cards_map self))).
    + now rewrite with_store_same.
    + rewrite with_store_same.
      destruct (dict_get (make_dbentry n) (_cards_map self)) eqn:Hget;
        cbn [deref store fresh]; rewrite ?Hget; reflexivity.
  - right. apply List.Forall_forall. intros c _ _.
    now rewrite (all_space_matcher n c Hspace).
  - cbn [store]. rewrite rest_start. unfold requests in Hfuel. lia.
Qed.

(** X18, witness: with [doubles_only], on a catalogue without double card,
    the lookup of " " returns no card instead of raising. *)
Lemma whitespace_name_outcome_witness :
  lookup 100 (init [ice]) (Some " ") true true false None None
  = (Returns (Cards []), init [ice]).
Proof.
  apply (whitespace_name_outcome 100 (init [ice]) " " true false None None).
  - discriminate.
  - reflexivity.
  - reflexivity.
  - vm_compute. lia.
Defined.

(** X19.  With [expand_search], when the exact matches of the name are the
    list [cs] of the index and neither they nor the cards listed before
    them are selected, the lookup returns the exact matches followed by the
    selected cards of the index, and appends these selected cards to the
    list of the exact matches in the index; if it appended any, the same
    lookup on the object it leaves never returns. *)
Theorem expanded_search_extends_its_exact_matches fuel self n doubles unique code
    stype d1 cs d2 :
  rejected stype = false ->
  Py.replace "*" "" n <> "" ->
  Py.startswith n "*" = true \/ Py.endswith n "*" = true
  \/ Py.split (Py.lower n) <> [] ->
  _cards_map self = d1 ++ (make_dbentry n, cs) :: d2 ->
  Forall (fun kv => fst kv <> make_dbentry n) d1 ->
  Forall (fun c => selected doubles n c = false) (all_cards d1 ++ cs) ->
  requests (_cards_map self) <= fuel ->
  let found := List.filter (selected doubles n) (all_cards (_cards_map self)) in
  let after := {| _cards_map := d1 ++ (make_dbentry n, cs ++ found) :: d2;
                  _expansion_codename_map := _expansion_codename_map self |} in
  lookup fuel self (Some n) true doubles unique code stype
    = (Returns (Cards (select self unique code stype (cs ++ found))), after)
  /\ (found <> [] ->
      forall fuel',
        fst (lookup fuel' after (Some n) true doubles unique code stype)
        = OutOfFuel).
Proof.
  intros Hok Hname Hshape Hmap Hd1 Hnone Hfuel found after.
  pose proof (name_criterion_given n Hname) as Hn.
  pose proof (matcher_total n Hshape) as Htotal.
  split.
  - now apply lookup_expand_stored.
  - intros Hfound fuel'.
    destruct found as [|c l] eqn:Hf; [congruence|].
    assert (Hsel : selected doubles n c = true).
    { assert (Hc : In c (c :: l)) by now left.
      rewrite <- Hf in Hc. unfold found in Hc.
      now apply List.filter_In in Hc as [_ Hc]. }
    apply (lookup_exact_match_diverges fuel' after n doubles unique code stype
             d1 (cs ++ c :: l) d2 c); try assumption.
    + reflexivity.
    + apply in_app_iff. right. apply in_app_iff. right. now left.
Qed.

(** X19, witness: the lookup of "ice" among the double cards of the small
    catalogue, once and again. *)
Lemma expanded_search_extends_its_exact_matches_witness :
  fst (lookup 100 small_db (Some "ice") true true false None None)
    = Returns (Cards [card_of_entry ice; card_of_entry fire_ice])
  /\ forall fuel',
       fst (lookup fuel'
              (snd (lookup 100 small_db (Some "ice") true true false None None))
              (Some "ice") true true false None None)
       = OutOfFuel.
Proof.
  destruct (expanded_search_extends_its_exact_matches 100 small_db "ice" true false
              None None [] [card_of_entry ice] (tl (_cards_map small_db)))
    as [Hrun Hagain].
  - reflexivity.
  - discriminate.
  - right. right. vm_compute. discriminate.
  - vm_compute. reflexivity.
  - constructor.
  - repeat constructor.
  - vm_compute. lia.
  - rewrite Hrun. split; [vm_compute; reflexivity|].
    apply Hagain. vm_compute. discriminate.
Defined.

(** * The result of a lookup, pass by pass *)

Lemma select_passes self unique code stype cs :
  select self unique code stype cs = passes self unique code stype cs.
Proof.
  unfold passes, by_set_type, by_set_code. destruct code as [sc|].
  - rewrite select_by_code. unfold finish. rewrite _result_set_id.
    destruct unique; [rewrite unique_values_first|]; reflexivity.
  - rewrite select_no_code. unfold finish. rewrite _result_set_id.
    destruct unique; [rewrite unique_values_first|]; reflexivity.
Qed.

Lemma name_criterion_arg card_name n :
  name_criterion card_name = Some n -> card_name = Some n.
Proof.
  destruct card_name as [m|]; [|discriminate].
  intros H. now rewrite (name_criterion_Some _ _ H).
Qed.

(** No name, and a set code or a set type: all the cards of the index go
    through the passes. *)
Lemma lookup_without_name fuel self card_name expand doubles unique code stype :
  rejected stype = false ->
  name_criterion card_name = None ->
  is_Some code \/ is_Some stype ->
  lookup fuel self card_name expand doubles unique code stype
  = (Returns (Cards (passes self unique code stype (all_cards (_cards_map self)))),
     self).
Proof.
  intros Hok Hn Hcrit. unfold lookup. rewrite Hok, Hn, is_Some_None.
  assert (Hany : bool_decide (is_Some code) || bool_decide (is_Some stype) = true).
  { apply orb_true_iff. destruct Hcrit as [H|H]; [left|right];
      now apply bool_decide_eq_true. }
  cbn [orb]. rewrite Hany. cbn [negb]. now rewrite select_passes.
Qed.

(** A name, without [expand_search]: its exact matches go through the
    passes. *)
Lemma lookup_exact fuel self card_name doubles unique code stype n :
  rejected stype = false ->
  name_criterion card_name = Some n ->
  lookup fuel self card_name false doubles unique code stype
  = (Returns (Cards (passes self unique code stype (exact_matches self n))), self).
Proof.
  intros Hok Hn. rewrite lookup_plain, Hok, Hn. now rewrite select_passes.
Qed.

(** A name without exact match, with [expand_search]: the selected cards of
    the index go through the passes. *)
Lemma lookup_fresh fuel self card_name doubles unique code stype n :
  rejected stype = false ->
  name_criterion card_name = Some n ->
  dict_get (make_dbentry n) (_cards_map self) = None ->
  Py.startswith n "*" = true \/ Py.endswith n "*" = true
  \/ Py.split (Py.lower n) <> [] ->
  requests (_cards_map self) <= fuel ->
  lookup fuel self card_name true doubles unique code stype
  = (Returns (Cards (passes self unique code stype
                       (List.filter (selected doubles n)
                                    (all_cards (_cards_map self))))), self).
Proof.
  intros Hok Hn Hget Hshape Hfuel.
  pose proof (name_criterion_arg _ _ Hn) as Harg. subst card_name.
  rewrite (lookup_expand_fresh fuel self n doubles unique code stype Hok Hn
             (matcher_total n Hshape) Hget Hfuel).
  now rewrite select_passes.
Qed.

(** C5.  With a set code, a lookup returns the candidates that pass the
    test on the set code, in their order, then reduced by the set type and
    the unique values when these are asked for.  The test is equality with
    the code when the code is a key of the table of set codes, and
    otherwise that the set code of the card starts with it, case-sensitive.
    The candidates are all the cards of the index when no name is given,
    the exact matches of the name without [expand_search], the selected
    cards with it (here when the name has no exact match); in general, what
    the lookup by the name alone returns.  When no candidate passes, the
    result is the empty sequence. *)
Theorem set_code_filter fuel self card_name expand doubles (unique : bool) sc stype :
  rejected stype = false ->
  let known := is_Some (_expansion_codename_map self !! sc) in
  let keep :=
    fun c => if bool_decide (is_Some (_expansion_codename_map self !! sc))
             then String.eqb (set_code c) sc
             else Py.startswith (set_code c) sc in
  let later :=
    fun cs => let typed := by_set_type stype cs in
              if unique then first_by_name typed else typed in
  let call := lookup fuel self card_name expand doubles unique (Some sc) stype in
  (forall c, keep c = true <->
     (known /\ set_code c = sc)
     \/ (~ known /\ exists r, set_code c = (sc ++ r)%string))
  /\ (name_criterion card_name = None ->
      call = (Returns (Cards (later (List.filter keep
                                       (all_cards (_cards_map self))))), self))
  /\ (forall n, name_criterion card_name = Some n -> expand = false ->
      call = (Returns (Cards (later (List.filter keep (exact_matches self n)))),
              self))
  /\ (forall n, name_criterion card_name = Some n -> expand = true ->
      dict_get (make_dbentry n) (_cards_map self) = None ->
      Py.startswith n "*" = true \/ Py.endswith n "*" = true
      \/ Py.split (Py.lower n) <> [] ->
      requests (_cards_map self) <= fuel ->
      call = (Returns (Cards (later (List.filter keep
                                       (List.filter (selected doubles n)
                                          (all_cards (_cards_map self)))))),
              self))
  /\ call = on_cards (fun cands => later (List.filter keep cands))
              (candidates fuel self card_name expand doubles)
  /\ (forall cands self',
        candidates fuel self card_name expand doubles
          = (Returns (Cards cands), self') ->
        List.filter keep cands = [] ->
        call = (Returns (Cards []), self')).
Proof.
  intros Hok known keep later call.
  assert (Hlater : forall cs, passes self unique (Some sc) stype cs
                              = later (List.filter keep cs)) by reflexivity.
  assert (Hnil : later [] = []).
  { unfold later. destruct stype, unique; reflexivity. }
  assert (Hmain : call = on_cards (fun cands => later (List.filter keep cands))
                           (candidates fuel self card_name expand doubles)).
  { unfold call, candidates, lookup. rewrite Hok.
    change (rejected None) with false. cbv iota.
    rewrite is_Some_Some, is_Some_None.
    destruct (name_criterion card_name) as [n|].
    - rewrite is_Some_Some. cbn [orb negb].
      destruct (is_nil _ && negb expand).
      + cbn [on_cards _result_set List.filter]. now rewrite Hnil.
      + destruct expand.
        * destruct (extend _ _ _ _ _ _ _) as [[[]| |] h']; try reflexivity.
          cbn [on_cards]. now rewrite select_passes, Hlater, select_all.
        * cbn [on_cards]. now rewrite select_passes, Hlater, select_all.
    - cbn [orb negb on_cards]. now rewrite select_passes, Hlater. }
  split; [|split; [|split; [|split; [|split]]]].
  - intros c. unfold keep, known.
    destruct (bool_decide_reflect (is_Some (_expansion_codename_map self !! sc)))
      as [Hk|Hk].
    + rewrite String.eqb_eq. tauto.
    + rewrite startswith_prefix. tauto.
  - intros Hn. unfold call.
    rewrite lookup_without_name; try assumption; [now rewrite Hlater|].
    left. now eexists.
  - intros n Hn ->. unfold call.
    rewrite (lookup_exact _ _ _ _ _ _ _ n); try assumption. now rewrite Hlater.
  - intros n Hn -> Hget Hshape Hfuel. unfold call.
    rewrite (lookup_fresh _ _ _ _ _ _ _ n); try assumption. now rewrite Hlater.
  - exact Hmain.
  - intros cands self' Hc Hnone. rewrite Hmain, Hc. cbn [on_cards].
    now rewrite Hnone, Hnil.
Qed.

(** C5, witness: the set code "w", not in the table, kept as a prefix of
    the set codes of the printings of Hammer of Bogardan. *)
Lemma set_code_filter_witness :
  lookup 0 small_db (Some "HAMMEr of BOGardAn") false false false (Some "w") None
  = (Returns (Cards [card_of_entry hammer_wc97]), small_db).
Proof.
  destruct (set_code_filter 0 small_db (Some "HAMMEr of BOGardAn") false false false
              "w" None eq_refl) as (_ & _ & Hexact & _).
  rewrite (Hexact "HAMMEr of BOGardAn"); [|reflexivity|reflexivity].
  vm_compute. reflexivity.
Defined.

(** C6.  With [unique=True] a lookup returns the first card met for each
    name among the candidates left by the set-code and set-type tests: the
    cards kept are in the order of the candidates, no two have the same
    name, and a card is kept exactly where no earlier candidate has its
    name, whatever its set.  The candidates are all the cards of the index
    when no name is given, the exact matches of the name without
    [expand_search], the selected cards with it (here when the name has no
    exact match); in general the result is what the lookup gives without
    [unique], so reduced. *)
Theorem unique_keeps_first_by_name fuel self card_name expand doubles code stype :
  let call := lookup fuel self card_name expand doubles true code stype in
  let left_by := fun cs => by_set_type stype (by_set_code self code cs) in
  call = on_cards first_by_name
           (lookup fuel self card_name expand doubles false code stype)
  /\ (forall cs,
        sublist (first_by_name cs) cs
        /\ NoDup (map name (first_by_name cs))
        /\ forall c, In c (first_by_name cs) <->
             exists pre post, cs = pre ++ c :: post /\ ~ In (name c) (map name pre))
  /\ (rejected stype = false ->
      (name_criterion card_name = None -> is_Some code \/ is_Some stype ->
       call = (Returns (Cards (first_by_name
                                 (left_by (all_cards (_cards_map self))))), self))
      /\ (forall n, name_criterion card_name = Some n -> expand = false ->
          call = (Returns (Cards (first_by_name (left_by (exact_matches self n)))),
                  self))
      /\ (forall n, name_criterion card_name = Some n -> expand = true ->
          dict_get (make_dbentry n) (_cards_map self) = None ->
          Py.startswith n "*" = true \/ Py.endswith n "*" = true
          \/ Py.split (Py.lower n) <> [] ->
          requests (_cards_map self) <= fuel ->
          call = (Returns (Cards (first_by_name
                                    (left_by (List.filter (selected doubles n)
                                                (all_cards (_cards_map self)))))),
                  self)))
  /\ (rejected stype = false ->
      forall cs self', call = (Returns (Cards cs), self') ->
                       NoDup (map name cs)).
Proof.
  intros call left_by.
  assert (Hrel : call = on_cards first_by_name
                          (lookup fuel self card_name expand doubles false code stype)).
  { unfold call, lookup, on_cards.
    destruct (rejected stype); [reflexivity|].
    destruct (negb _); [reflexivity|].
    destruct (name_criterion card_name) as [n|].
    + destruct (is_nil _ && negb expand); [reflexivity|].
      destruct expand.
      * destruct (extend _ _ _ _ _ _ _) as [[[]| |] h']; try reflexivity.
        now rewrite select_unique.
      * now rewrite select_unique.
    + now rewrite select_unique. }
  split; [exact Hrel|]. split; [|split].
  - intros cs. split; [apply first_seen_sublist|].
    split; [apply first_seen_NoDup|].
    intros c. unfold first_by_name. now rewrite first_seen_In.
  - intros Hok. split; [|split].
    + intros Hn Hcrit. unfold call. now rewrite lookup_without_name.
    + intros n Hn ->. unfold call. now rewrite (lookup_exact _ _ _ _ _ _ _ n).
    + intros n Hn -> Hget Hshape Hfuel. unfold call.
      now rewrite (lookup_fresh _ _ _ _ _ _ _ n).
  - intros Hok cs self' Hcall. rewrite Hrel in Hcall.
    destruct (lookup fuel self card_name expand doubles false code stype)
      as [[[cs0|e]|e|] s0]; cbn [on_cards] in Hcall; try discriminate.
    injection Hcall as <- _. apply first_seen_NoDup.
Qed.

(** C6, witness: the first printing of Hammer of Bogardan. *)
Lemma unique_keeps_first_by_name_witness :
  lookup 0 small_db (Some "Hammer of Bogardan") false false true None None
  = (Returns (Cards [card_of_entry hammer_mir]), small_db).
Proof.
  destruct (unique_keeps_first_by_name 0 small_db (Some "Hammer of Bogardan")
              false false None None) as (_ & _ & Hexplicit & _).
  destruct (Hexplicit eq_refl) as (_ & Hexact & _).
  rewrite (Hexact "Hammer of Bogardan"); [|reflexivity|reflexivity].
  vm_compute. reflexivity.
Defined.

(** C9, as the code has it.  For a lookup by name with [expand_search] and
    [doubles_only], the cards the expanded search adds are cards with "//"
    in their name that pass the filter of the name, and the exact matches
    of the name are kept before them whether or not their name has "//":
    what is returned is the exact matches followed by the added cards,
    taken through the later passes.  When the name has no exact match the
    lookup returns the double cards of the index that pass the filter; when
    it has exact matches that the search does not select, it returns them
    followed by those double cards.  Without [expand_search],
    [doubles_only] changes nothing: the lookup returns the exact matches,
    taken through the later passes. *)
Theorem doubles_only_restricts_the_expansion fuel self n (unique : bool) code stype :
  Py.replace "*" "" n <> "" ->
  let exact := exact_matches self n in
  let double := fun c => Py.contains (name c) "//" in
  let chosen := fun c => double c && bool_decide (matcher n c = Some true) in
  let later := passes self unique code stype in
  let call := lookup fuel self (Some n) true true unique code stype in
  let shaped := Py.startswith n "*" = true \/ Py.endswith n "*" = true
                \/ Py.split (Py.lower n) <> [] in
  (forall res self', call = (Returns (Cards res), self') ->
     (exists added,
        res = later (exact ++ added)
        /\ Forall (fun c => chosen c = true) added)
     /\ forall c, In c res -> In c exact \/ double c = true)
  /\ (rejected stype = false -> shaped ->
      dict_get (make_dbentry n) (_cards_map self) = None ->
      requests (_cards_map self) <= fuel ->
      call = (Returns (Cards (later (List.filter chosen
                                       (all_cards (_cards_map self))))), self)
      /\ Forall (fun c => double c = true)
                (later (List.filter chosen (all_cards (_cards_map self)))))
  /\ (forall d1 cs d2,
        rejected stype = false -> shaped ->
        _cards_map self = d1 ++ (make_dbentry n, cs) :: d2 ->
        Forall (fun kv => fst kv <> make_dbentry n) d1 ->
        Forall (fun c => chosen c = false) (all_cards d1 ++ cs) ->
        requests (_cards_map self) <= fuel ->
        exact = cs
        /\ fst call
           = Returns (Cards (later (cs ++ List.filter chosen
                                            (all_cards (_cards_map self))))))
  /\ (forall card_name,
        lookup fuel self card_name false true unique code stype
        = lookup fuel self card_name false false unique code stype)
  /\ (rejected stype = false ->
      forall doubles,
        lookup fuel self (Some n) false doubles unique code stype
        = (Returns (Cards (later exact)), self)).
Proof.
  intros Hname exact double chosen later call shaped.
  apply name_criterion_given in Hname.
  split; [|split; [|split; [|split]]].
  - intros res self' Hrun. unfold call, lookup in Hrun.
    destruct (rejected stype); [discriminate|].
    rewrite Hname, is_Some_Some in Hrun. cbn [orb negb] in Hrun.
    rewrite andb_false_r in Hrun.
    destruct (extend _ _ _ _ _ _ _) as [o h'] eqn:Hext.
    apply extend_appends in Hext as [(added & Hd & Hadded) _].
    destruct o as [[]| |]; try discriminate.
    injection Hrun as <- <-.
    assert (Hexact : deref match dict_get (make_dbentry n) (_cards_map self) with
                           | Some _ => Stored (make_dbentry n)
                           | None => Fresh
                           end {| store := _cards_map self; fresh := [] |} = exact).
    { unfold exact, exact_matches.
      destruct (dict_get (make_dbentry n) (_cards_map self)) eqn:Hget;
        cbn [deref store fresh]; rewrite ?Hget; reflexivity. }
    rewrite Hexact in Hd. rewrite Hd, select_passes.
    assert (Hchosen : Forall (fun c => chosen c = true) added).
    { apply List.Forall_forall. intros c Hc.
      rewrite List.Forall_forall in Hadded. destruct (Hadded c Hc) as [Hp Hf].
      unfold chosen, double. cbn [in_pool] in Hp. rewrite Hp, Hf. reflexivity. }
    split; [now exists added|].
    intros c Hc. rewrite <- select_passes in Hc. apply select_In in Hc.
    apply in_app_iff in Hc as [Hc|Hc]; [now left|right].
    rewrite List.Forall_forall in Hchosen. specialize (Hchosen c Hc).
    now apply andb_true_iff in Hchosen as [Hdbl _].
  - intros Hok Hshape Hget Hfuel. split.
    + unfold call. rewrite (lookup_fresh _ _ _ _ _ _ _ n); try assumption.
      reflexivity.
    + apply List.Forall_forall. intros c Hc. unfold later in Hc.
      rewrite <- select_passes in Hc. apply select_In in Hc.
      apply List.filter_In in Hc as [_ Hsel].
      now apply andb_true_iff in Hsel as [Hdbl _].
  - intros d1 cs d2 Hok Hshape Hmap Hd1 Hnone Hfuel. split.
    + unfold exact, exact_matches. rewrite Hmap.
      now rewrite (dict_get_middle _ _ _ _ Hd1).
    + unfold call.
      rewrite (lookup_expand_stored fuel self n true unique code stype d1 cs d2
                 Hok Hname (matcher_total n Hshape) Hmap Hd1 Hnone Hfuel).
      cbn [fst]. now rewrite select_passes.
  - intros card_name. now rewrite !lookup_plain.
  - intros Hok doubles. now rewrite (lookup_exact _ _ _ _ _ _ _ n).
Qed.

(** C9, witness: the lookup of "ice" with [expand_search] and
    [doubles_only], which returns the exact match Ice and then the double
    card Fire // Ice. *)
Lemma doubles_only_restricts_the_expansion_witness :
  fst (lookup 100 small_db (Some "ice") true true false None None)
  = Returns (Cards [card_of_entry ice; card_of_entry fire_ice]).
Proof.
  destruct (doubles_only_restricts_the_expansion 100 small_db "ice" false None None)
    as (_ & _ & Hstored & _); [discriminate|].
  destruct (Hstored [] [card_of_entry ice] (tl (_cards_map small_db)))
    as [_ Hrun].
  - reflexivity.
  - right. right. vm_compute. discriminate.
  - vm_compute. reflexivity.
  - constructor.
  - repeat constructor.
  - vm_compute. lia.
  - rewrite Hrun. vm_compute. reflexivity.
Defined.
